(** * Identity store of the demo backend (server-simple.js)

    A shallow embedding of the in-memory user store and of the handlers of
    [/api/auth/register], [/api/auth/login], [/api/auth/me],
    [/api/auth/update-profile], [/api/auth/forgot-password] and
    [/api/auth/logout].

    Modelling conventions.
    - A JavaScript string is a [string]; every character stands for one code
      unit, so [String.length] is the [.length] of the source.
    - A field of a request body is a [value], what [express.json()] can
      deliver: absent ([undefined]), [null], a boolean, a number, a string,
      an array or an object.  A number is an integer that [String] prints in
      plain decimal notation; an object is kept without its properties,
      which no handler reads, and stands for an object that has no own
      property named [length], [toString] or [valueOf].
    - [Date.now()] is an argument of [register]: a number of milliseconds
      since the epoch, an [N].
    - User objects live in a heap and the global [users] object maps its own
      property names to heap locations, so that the local variable [user] of
      a handler and the property [users[email]] denote the same object. *)

From Stdlib Require Import List String Ascii Bool Arith NArith ZArith Lia.
From Stdlib Require Import Decimal DecimalString DecimalN Permutation.
Import ListNotations.
Local Open Scope list_scope.
Local Open Scope string_scope.

(** ** JavaScript values and string primitives *)

Set Warnings "-register-all".

Inductive value : Type :=
| VUndefined
| VNull
| VBool (b : bool)
| VNum (n : Z)
| VStr (s : string)
| VArr (elements : list value)
| VObj.

(** [!!v]: [undefined], [null], [false], [0] and the empty string are falsy;
    arrays and objects are truthy, empty or not. *)
Definition truthy (v : value) : bool :=
  match v with
  | VUndefined | VNull => false
  | VBool b => b
  | VNum n => negb (n =? 0)%Z
  | VStr s => negb (s =? "")
  | VArr _ | VObj => true
  end.

(** [String(v)], the conversion applied to a property key: an array is its
    elements joined by commas, [null] and [undefined] elements counting as
    empty. *)
Fixpoint to_string (v : value) : string :=
  match v with
  | VUndefined => "undefined"
  | VNull => "null"
  | VBool true => "true"
  | VBool false => "false"
  | VNum n => NilZero.string_of_int (Z.to_int n)
  | VStr s => s
  | VArr elements =>
      String.concat ","
                    (map (fun e => match e with
                                   | VUndefined | VNull => ""
                                   | _ => to_string e
                                   end) elements)
  | VObj => "[object Object]"
  end.

(** [v === w].  Two arrays or two objects are equal only when they are the
    same object, and the operands of every comparison in the handlers come
    from two parsings or from a parsing and a literal: never the same. *)
Definition strict_eq (v w : value) : bool :=
  match v, w with
  | VUndefined, VUndefined => true
  | VNull, VNull => true
  | VBool b, VBool c => Bool.eqb b c
  | VNum n, VNum m => (n =? m)%Z
  | VStr s, VStr t => s =? t
  | _, _ => false
  end.

(** A value that [===] compares by content: anything but an array or an
    object, which [===] compares by identity. *)
Definition primitive (v : value) : bool :=
  match v with
  | VArr _ | VObj => false
  | _ => true
  end.

(** [v.length] for a truthy [v]: [None] is [undefined]. *)
Definition length_of (v : value) : option Z :=
  match v with
  | VStr s => Some (Z.of_nat (String.length s))
  | VArr elements => Some (Z.of_nat (List.length elements))
  | _ => None
  end.

(** [v.length < k]; the comparison with [undefined] is false. *)
Definition length_below (v : value) (k : Z) : bool :=
  match length_of v with
  | Some n => (n <? k)%Z
  | None => false
  end.

Arguments strict_eq : simpl nomatch.
Arguments truthy : simpl nomatch.
Arguments to_string : simpl nomatch.

(** [v || d] *)
Definition or_else (v d : value) : value := if truthy v then v else d.

(** [s.split(sep)] for a one-character separator. *)
Fixpoint split (sep : ascii) (s : string) : list string :=
  match s with
  | EmptyString => [EmptyString]
  | String c r =>
      if Ascii.eqb c sep then EmptyString :: split sep r
      else match split sep r with
           | h :: t => String c h :: t
           | [] => [String c EmptyString]
           end
  end.

(** [n.toString()] for a non-negative integer. *)
Definition toString (n : N) : string := NilZero.string_of_uint (N.to_uint n).

(** ** The data model *)

Module User.
(** The object literal of [register], plus the four profile properties that
    [update-profile] may add ([VUndefined] while the property is missing). *)
Record t : Type := mk {
  id : string;
  email : value;
  password : value;
  name : value;
  mobileNumber : value;
  alternativeNumber : value;
  aadharNumber : value;
  avatar : value
}.

Definition set_name (n : value) (u : t) : t :=
  mk (id u) (email u) (password u) n
     (mobileNumber u) (alternativeNumber u) (aadharNumber u) (avatar u).
Definition set_mobileNumber (v : value) (u : t) : t :=
  mk (id u) (email u) (password u) (name u)
     v (alternativeNumber u) (aadharNumber u) (avatar u).
Definition set_alternativeNumber (v : value) (u : t) : t :=
  mk (id u) (email u) (password u) (name u)
     (mobileNumber u) v (aadharNumber u) (avatar u).
Definition set_aadharNumber (v : value) (u : t) : t :=
  mk (id u) (email u) (password u) (name u)
     (mobileNumber u) (alternativeNumber u) v (avatar u).
Definition set_avatar (v : value) (u : t) : t :=
  mk (id u) (email u) (password u) (name u)
     (mobileNumber u) (alternativeNumber u) (aadharNumber u) v.
End User.

Definition loc : Type := nat.
Definition heap : Type := list User.t.

Definition deref (h : heap) (l : loc) : option User.t := nth_error h l.

(** [o.f = v] on the object at [l]. *)
Fixpoint modify (l : loc) (f : User.t -> User.t) (h : heap) {struct h}
  : heap :=
  match h, l with
  | [], _ => []
  | u :: r, O => f u :: r
  | u :: r, S l' => u :: modify l' f r
  end.

(** The own properties of [users], in the order [for ... in] visits them:
    array-index names in ascending order, then the other names in the order
    of their creation. *)
Definition props : Type := list (string * loc).

Record state : Type := mkState {
  objects : heap;
  users : props
}.

(** [const users = {}] *)
Definition init : state := mkState [] [].

(** An array index is the canonical decimal form of an integer below
    [2^32 - 1]. *)
Definition array_index (k : string) : option N :=
  match NilZero.uint_of_string k with
  | Some d =>
      let n := N.of_uint d in
      if (toString n =? k) && (n <? 4294967295)%N then Some n else None
  | None => None
  end.

Definition precedes (k k' : string) : bool :=
  match array_index k, array_index k' with
  | Some n, Some n' => (n <? n')%N
  | Some _, None => true
  | None, _ => false
  end.

Fixpoint own (k : string) (ps : props) : option loc :=
  match ps with
  | [] => None
  | (k', l) :: r => if k' =? k then Some l else own k r
  end.

Fixpoint replace_prop (k : string) (l : loc) (ps : props) : props :=
  match ps with
  | [] => []
  | (k', l') :: r =>
      if k' =? k then (k, l) :: r else (k', l') :: replace_prop k l r
  end.

Fixpoint insert_prop (k : string) (l : loc) (ps : props) : props :=
  match ps with
  | [] => [(k, l)]
  | (k', l') :: r =>
      if precedes k k' then (k, l) :: (k', l') :: r
      else (k', l') :: insert_prop k l r
  end.

(** [users[k] = l] *)
Definition set_prop (k : string) (l : loc) (ps : props) : props :=
  match own k ps with
  | Some _ => replace_prop k l ps
  | None => insert_prop k l ps
  end.

(** [delete users[k]] *)
Fixpoint delete_prop (k : string) (ps : props) : props :=
  match ps with
  | [] => []
  | (k', l) :: r =>
      if k' =? k then delete_prop k r else (k', l) :: delete_prop k r
  end.

(** The property names [users] inherits from [Object.prototype]; each holds a
    function or an object, hence a truthy value without [id] or [password]. *)
Definition object_prototype : list string :=
  [ "constructor"; "__defineGetter__"; "__defineSetter__"; "hasOwnProperty";
    "__lookupGetter__"; "__lookupSetter__"; "isPrototypeOf";
    "propertyIsEnumerable"; "toString"; "valueOf"; "__proto__";
    "toLocaleString" ].

Inductive property : Type :=
| Own (l : loc)
| Inherited
| Missing.

(** [users[k]] *)
Definition get_prop (ps : props) (k : string) : property :=
  match own k ps with
  | Some l => Own l
  | None => if existsb (String.eqb k) object_prototype then Inherited else Missing
  end.

(** [!!users[k]] *)
Definition defined (p : property) : bool :=
  match p with
  | Missing => false
  | _ => true
  end.

(** ** Requests and responses *)

Module Body.
(** [req.body]; a field is [VUndefined] when its key is absent. *)
Record t : Type := mk {
  email : value;
  password : value;
  name : value;
  mobileNumber : value;
  alternativeNumber : value;
  aadharNumber : value;
  avatar : value
}.

Definition empty : t :=
  mk VUndefined VUndefined VUndefined VUndefined VUndefined VUndefined
     VUndefined.
End Body.

(** The [user] object of a response: three fields after [register] and
    [login], seven after [me] and [update-profile]. *)
Inductive view : Type :=
| Account (id : string) (email name : value)
| Profile (id : string) (email name : value)
          (mobileNumber alternativeNumber aadharNumber avatar : value).

Definition view_id (v : view) : string :=
  match v with
  | Account i _ _ => i
  | Profile i _ _ _ _ _ _ => i
  end.

Definition view_email (v : view) : value :=
  match v with
  | Account _ e _ => e
  | Profile _ e _ _ _ _ _ => e
  end.

Record response : Type := mkResponse {
  status : N;
  success : bool;
  message : option string;
  token : option string;
  user : option view
}.

(** [res.status(code).json({ success: false, message })] *)
Definition failure (code : N) (msg : string) : response :=
  mkResponse code false (Some msg) None None.

(** [xs[i]] *)
Definition index (xs : list string) (i : nat) : value :=
  match nth_error xs i with
  | Some s => VStr s
  | None => VUndefined
  end.

(** [req.headers.authorization?.split(' ')[1]] *)
Definition bearer (authorization : option string) : value :=
  match authorization with
  | Some h => index (split " " h) 1
  | None => VUndefined
  end.

(** [token.split('-')[1]] *)
Definition token_user_id (tok : value) : value :=
  index (split "-" (to_string tok)) 1.

(** The loop [for (const email in users) if (users[email].id === userId)]:
    the first property, in enumeration order, whose object has that id. *)
Fixpoint find_user (h : heap) (ps : props) (userId : value)
  : option (string * loc) :=
  match ps with
  | [] => None
  | (email, l) :: r =>
      match deref h l with
      | Some u =>
          if strict_eq (VStr (User.id u)) userId then Some (email, l)
          else find_user h r userId
      | None => find_user h r userId
      end
  end.

Definition profile_view (u : User.t) : view :=
  Profile (User.id u) (User.email u) (User.name u)
          (or_else (User.mobileNumber u) (VStr ""))
          (or_else (User.alternativeNumber u) (VStr ""))
          (or_else (User.aadharNumber u) (VStr ""))
          (or_else (User.avatar u) VNull).

(** ** The handlers

    Each handler takes the store and returns the store and the answer.  The
    one exception a body can raise is the [TypeError] of [email.split] in
    [register], answered by its [catch] block.  A property of [users] always
    holds an allocated object, so a failing [deref] has no counterpart in the
    source: those branches are given the answer of the handler's [catch]
    block and are never taken from a well-formed store (see [wf] and
    [no_internal_error]). *)

(** [email.split('@')[0]]: only a string has a [split] method, and [None]
    is the [TypeError] of calling it on anything else. *)
Definition local_part (email : value) : option value :=
  match email with
  | VStr s => Some (index (split "@" s) 0)
  | _ => None
  end.

(** [name || email.split('@')[0]] *)
Definition name_or_local_part (name email : value) : option value :=
  if truthy name then Some name else local_part email.

(** [POST /api/auth/register]; [now] is the reading of [Date.now()]. *)
Definition register (now : N) (b : Body.t) (st : state) : state * response :=
  let email := Body.email b in
  let password := Body.password b in
  let name := Body.name b in
  if negb (truthy email) || negb (truthy password) then
    (st, failure 400 "Email and password required")
  else if length_below password 6 then
    (st, failure 400 "Password must be 6+ characters")
  else if defined (get_prop (users st) (to_string email)) then
    (st, failure 400 "User already exists")
  else
    let userId := toString now in
    match name_or_local_part name email with
    | Some name' =>
        let l := List.length (objects st) in
        let u := User.mk userId email password name'
                         VUndefined VUndefined VUndefined VUndefined in
        (mkState (objects st ++ [u])%list
                 (set_prop (to_string email) l (users st)),
         mkResponse 201 true (Some "Registered successfully")
                    (Some ("token-" ++ userId))
                    (Some (Account userId email name')))
    | None =>
        (st, failure 500 "Registration failed: email.split is not a function")
    end.

(** The object [register] stores: the literal [{ id: userId, email, password,
    name: name || email.split('@')[0] }] with
    [userId = Date.now().toString()]. *)
Definition new_user (now : N) (b : Body.t) : User.t :=
  User.mk (toString now) (Body.email b) (Body.password b)
          (match name_or_local_part (Body.name b) (Body.email b) with
           | Some name' => name'
           | None => VUndefined
           end)
          VUndefined VUndefined VUndefined VUndefined.

(** [POST /api/auth/login] *)
Definition login (b : Body.t) (st : state) : state * response :=
  let email := Body.email b in
  let password := Body.password b in
  if negb (truthy email) || negb (truthy password) then
    (st, failure 400 "Email and password required")
  else
    match get_prop (users st) (to_string email) with
    | Own l =>
        match deref (objects st) l with
        | Some u =>
            if negb (strict_eq (User.password u) password) then
              (st, failure 401 "Invalid credentials")
            else
              (st, mkResponse 200 true (Some "Login successful")
                              (Some ("token-" ++ User.id u))
                              (Some (Account (User.id u) (User.email u)
                                             (User.name u))))
        | None => (st, failure 500 "Login failed: ")
        end
    | Inherited =>
        (* [user.password] is [undefined] *)
        if negb (strict_eq VUndefined password) then
          (st, failure 401 "Invalid credentials")
        else (st, failure 500 "Login failed: ")
    | Missing => (st, failure 401 "Invalid credentials")
    end.

(** [GET /api/auth/me] *)
Definition me (authorization : option string) (st : state)
  : state * response :=
  let tok := bearer authorization in
  if negb (truthy tok) then (st, failure 401 "No token provided")
  else
    let userId := token_user_id tok in
    match find_user (objects st) (users st) userId with
    | None => (st, failure 404 "User not found")
    | Some (_, l) =>
        match deref (objects st) l with
        | Some u => (st, mkResponse 200 true None None (Some (profile_view u)))
        | None => (st, failure 500 "Failed to get profile: ")
        end
    end.

(** [if (v !== undefined) user.f = v] *)
Definition assign_if_defined (v : value) (set : value -> User.t -> User.t)
           (l : loc) (h : heap) : heap :=
  if negb (strict_eq v VUndefined) then modify l (set v) h else h.

(** [POST /api/auth/update-profile] *)
Definition update_profile (authorization : option string) (b : Body.t)
           (st : state) : state * response :=
  let tok := bearer authorization in
  if negb (truthy tok) then (st, failure 401 "No token provided")
  else
    let userId := token_user_id tok in
    match find_user (objects st) (users st) userId with
    | None => (st, failure 404 "User not found")
    | Some (userEmail, l) =>
        let name := Body.name b in
        let email := Body.email b in
        let h1 :=
          if truthy name then modify l (User.set_name name) (objects st)
          else objects st in
        let rekey := truthy email && negb (strict_eq email (VStr userEmail)) in
        if rekey && defined (get_prop (users st) (to_string email)) then
          (mkState h1 (users st), failure 400 "Email already in use")
        else
          let ps :=
            if rekey then
              delete_prop userEmail (set_prop (to_string email) l (users st))
            else users st in
          let h2 :=
            assign_if_defined (Body.mobileNumber b) User.set_mobileNumber l h1
          in
          let h3 :=
            assign_if_defined (Body.alternativeNumber b)
                              User.set_alternativeNumber l h2 in
          let h4 :=
            assign_if_defined (Body.aadharNumber b) User.set_aadharNumber l h3
          in
          let h5 := assign_if_defined (Body.avatar b) User.set_avatar l h4 in
          match deref h5 l with
          | Some u =>
              (mkState h5 ps,
               mkResponse 200 true (Some "Profile updated successfully") None
                          (Some (profile_view u)))
          | None => (mkState h5 ps, failure 500 "Profile update failed: ")
          end
    end.

(** [POST /api/auth/forgot-password] *)
Definition forgot_password (b : Body.t) (st : state) : state * response :=
  let email := Body.email b in
  if negb (truthy email) then (st, failure 400 "Email is required")
  else if negb (defined (get_prop (users st) (to_string email))) then
    (st, failure 404 "User not found")
  else
    (st, mkResponse 200 true (Some "Password reset email sent (demo mode)")
                    None None).

(** [POST /api/auth/logout] *)
Definition logout (st : state) : state * response :=
  (st, mkResponse 200 true (Some "Logged out successfully") None None).

(** ** The server as a transition system *)

Inductive request : Type :=
| Register (now : N) (b : Body.t)
| Login (b : Body.t)
| Me (authorization : option string)
| UpdateProfile (authorization : option string) (b : Body.t)
| ForgotPassword (b : Body.t)
| Logout.

Definition handle (q : request) (st : state) : state * response :=
  match q with
  | Register now b => register now b st
  | Login b => login b st
  | Me a => me a st
  | UpdateProfile a b => update_profile a b st
  | ForgotPassword b => forgot_password b st
  | Logout => logout st
  end.

Fixpoint run (qs : list request) (st : state) : state :=
  match qs with
  | [] => st
  | q :: r => run r (fst (handle q st))
  end.

Definition reachable (st : state) : Prop := exists qs, st = run qs init.

(** ** The error taxonomy of the interface description

    The handlers only produce a status and a message; the five error kinds
    are read off them: 400 is a conflict for the two uniqueness messages and
    a validation error otherwise, 401 an authentication error, 404 a missing
    record, 500 an internal error. *)

Inductive error : Type :=
| ValidationError
| ConflictError
| AuthError
| NotFoundError
| InternalError.

Definition error_kind (r : response) : option error :=
  if (status r =? 400)%N then
    match message r with
    | Some m =>
        if (m =? "User already exists") || (m =? "Email already in use")
        then Some ConflictError else Some ValidationError
    | None => Some ValidationError
    end
  else if (status r =? 401)%N then Some AuthError
  else if (status r =? 404)%N then Some NotFoundError
  else if (status r =? 500)%N then Some InternalError
  else None.

(** A token as the interface description has it: the literal prefix
    followed by an id. *)
Definition well_formed_token (t : string) : bool := prefix "token-" t.

(** ** Invariants of reachable states *)

Definition keys (ps : props) : list string := map fst ps.
Definition locs (ps : props) : list loc := map snd ps.

(** Every property holds an allocated object and no object is held by two
    properties. *)
Record wf (st : state) : Prop := mkWf {
  wf_keys : NoDup (keys (users st));
  wf_locs : NoDup (locs (users st));
  wf_closed : Forall (fun l => l < List.length (objects st)) (locs (users st))
}.

(** The ids of the stored records, one per property. *)
Definition stored_ids (st : state) : list string :=
  flat_map (fun kl => match deref (objects st) (snd kl) with
                      | Some u => [User.id u]
                      | None => []
                      end) (users st).

(** The properties whose object carries the id [i]. *)
Definition keys_with_id (st : state) (i : string) : list string :=
  flat_map (fun kl => match deref (objects st) (snd kl) with
                      | Some u => if User.id u =? i then [fst kl] else []
                      | None => []
                      end) (users st).

(** The properties that hold the object [l]. *)
Definition keys_of_loc (ps : props) (l : loc) : list string :=
  flat_map (fun kl => if Nat.eqb (snd kl) l then [fst kl] else []) ps.

(** [c] occurs in [s]. *)
Fixpoint occurs (c : ascii) (s : string) : bool :=
  match s with
  | EmptyString => false
  | String c' r => Ascii.eqb c' c || occurs c r
  end.

(** ** The effect of [update-profile] on the caller's object *)

(** The assignments of the handler, applied to the object in order. *)
Definition assigned (b : Body.t) (u : User.t) : User.t :=
  let u1 :=
    if truthy (Body.name b) then User.set_name (Body.name b) u
    else u in
  let u2 :=
    if negb (strict_eq (Body.mobileNumber b) VUndefined)
    then User.set_mobileNumber (Body.mobileNumber b) u1 else u1 in
  let u3 :=
    if negb (strict_eq (Body.alternativeNumber b) VUndefined)
    then User.set_alternativeNumber (Body.alternativeNumber b) u2 else u2 in
  let u4 :=
    if negb (strict_eq (Body.aadharNumber b) VUndefined)
    then User.set_aadharNumber (Body.aadharNumber b) u3 else u3 in
  if negb (strict_eq (Body.avatar b) VUndefined)
  then User.set_avatar (Body.avatar b) u4 else u4.

(** The outcome of [update-profile], case by case. *)
Inductive update_outcome (authorization : option string) (b : Body.t)
          (st : state) : state -> response -> Prop :=
| NoToken :
    truthy (bearer authorization) = false ->
    update_outcome authorization b st st (failure 401 "No token provided")
| NoUser :
    truthy (bearer authorization) = true ->
    find_user (objects st) (users st)
              (token_user_id (bearer authorization)) = None ->
    update_outcome authorization b st st (failure 404 "User not found")
| EmailTaken (userEmail : string) (l : loc) (u : User.t) (h : heap) :
    truthy (bearer authorization) = true ->
    find_user (objects st) (users st)
              (token_user_id (bearer authorization)) = Some (userEmail, l) ->
    deref (objects st) l = Some u ->
    truthy (Body.email b) = true ->
    Body.email b <> VStr userEmail ->
    defined (get_prop (users st) (to_string (Body.email b))) = true ->
    List.length h = List.length (objects st) ->
    (forall l',
        deref h l' =
        if Nat.eqb l' l
        then Some (if truthy (Body.name b)
                   then User.set_name (Body.name b) u else u)
        else deref (objects st) l') ->
    update_outcome authorization b st (mkState h (users st))
                   (failure 400 "Email already in use")
| Updated (userEmail : string) (l : loc) (u : User.t) (h : heap)
          (ps : props) :
    truthy (bearer authorization) = true ->
    find_user (objects st) (users st)
              (token_user_id (bearer authorization)) = Some (userEmail, l) ->
    deref (objects st) l = Some u ->
    (truthy (Body.email b) = true /\ Body.email b <> VStr userEmail /\
     own (to_string (Body.email b)) (users st) = None /\
     ps = delete_prop userEmail
                      (set_prop (to_string (Body.email b)) l (users st))
     \/
     (truthy (Body.email b) = false \/ Body.email b = VStr userEmail) /\
     ps = users st) ->
    List.length h = List.length (objects st) ->
    (forall l',
        deref h l' =
        if Nat.eqb l' l then Some (assigned b u) else deref (objects st) l') ->
    update_outcome authorization b st (mkState h ps)
                   (mkResponse 200 true (Some "Profile updated successfully")
                               None (Some (profile_view (assigned b u)))).

(** ** Sentences of the interface description, as predicates

    Each of these states what a sentence of the interface description
    promises at given inputs; the properties below prove or refute them. *)

(** Every property holding an object with id [i] is [k]. *)
Definition sole_owner (st : state) (i k : string) : bool :=
  forallb (fun kl => match deref (objects st) (snd kl) with
                     | Some u => negb (User.id u =? i) || (fst kl =? k)
                     | None => true
                     end) (users st).

(** The token after a change of email: once the update has succeeded, the
    scan for the token's id still ends on the caller's object. *)
Definition token_survives_rekey (authorization : option string) (b : Body.t)
           (st : state) : Prop :=
  forall userEmail l,
    find_user (objects st) (users st)
              (token_user_id (bearer authorization)) = Some (userEmail, l) ->
    status (snd (update_profile authorization b st)) = 200%N ->
    truthy (Body.email b) = true ->
    Body.email b <> VStr userEmail ->
    exists k,
      find_user (objects (fst (update_profile authorization b st)))
                (users (fst (update_profile authorization b st)))
                (token_user_id (bearer authorization)) = Some (k, l).

(** Fresh ids at two consecutive registrations: the two ids differ, and the
    second is not among the ids stored before it. *)
Definition fresh_ids (now1 : N) (b1 : Body.t) (now2 : N) (b2 : Body.t)
           (st : state) : Prop :=
  status (snd (register now1 b1 st)) = 201%N ->
  status (snd (register now2 b2 (fst (register now1 b1 st)))) = 201%N ->
  option_map view_id (user (snd (register now1 b1 st))) <>
  option_map view_id
             (user (snd (register now2 b2 (fst (register now1 b1 st))))) /\
  ~ In (toString now2) (stored_ids (fst (register now1 b1 st))).

(** Rejection at the boundary, at one profile read: a request without a
    token, or with a token that is not of the form ["token-" ++ id], is
    answered 401. *)
Definition malformed_is_unauthorized (authorization : option string)
           (st : state) : Prop :=
  (forall t, bearer authorization = VStr t -> well_formed_token t = false) ->
  status (snd (me authorization st)) = 401%N.

(** A taken email at one registration: the answer is the conflict, whatever
    the other fields are. *)
Definition taken_email_conflicts (now : N) (b : Body.t) (st : state) : Prop :=
  forall l,
    own (to_string (Body.email b)) (users st) = Some l ->
    error_kind (snd (register now b st)) = Some ConflictError.

(** Register, then login with the same body: when the password has a length
    of six or more and the registration succeeds, so does the login. *)
Definition same_credentials_log_in (now : N) (b : Body.t) (st : state)
  : Prop :=
  forall n,
    length_of (Body.password b) = Some n -> (6 <= n)%Z ->
    status (snd (register now b st)) = 201%N ->
    status (snd (login b (fst (register now b st)))) = 200%N.


(** The caller's id at one successful update: exactly one property holds an
    object with that id, before and after. *)
Definition caller_id_has_one_key (authorization : option string) (b : Body.t)
           (st : state) : Prop :=
  forall userEmail l u,
    find_user (objects st) (users st)
              (token_user_id (bearer authorization)) = Some (userEmail, l) ->
    deref (objects st) l = Some u ->
    status (snd (update_profile authorization b st)) = 200%N ->
    List.length (keys_with_id st (User.id u)) = 1 /\
    List.length (keys_with_id (fst (update_profile authorization b st))
                              (User.id u)) = 1.

(** ** Sample requests and stores *)

Definition account (e p n : value) : Body.t :=
  Body.mk e p n VUndefined VUndefined VUndefined VUndefined.

Definition ann : Body.t :=
  account (VStr "a@x.com") (VStr "secret1") (VStr "Ann").

Definition bob : Body.t :=
  account (VStr "b@x.com") (VStr "secret2") (VStr "Bob").

(** Ann alone. *)
Definition one_user : state := run [Register 1000 ann] init.

(** Ann and Bob, registered a second apart. *)
Definition two_users : state := run [Register 1000 ann; Register 2000 bob] init.

(** Ann and Bob, registered within the same millisecond. *)
Definition same_tick : state := run [Register 1000 ann; Register 1000 bob] init.

Definition ann_header : option string := Some "Bearer token-1000".

(** ** Further notions for the store *)

(** [k] names a property of [Object.prototype]. *)
Definition inherited (k : string) : bool :=
  existsb (String.eqb k) object_prototype.

(** What [register] and [update-profile] establish for every property of
    [users]: its name is one that [Object.prototype] does not have, and it
    holds a user whose password is truthy and, when it has a length, has a
    length of six or more, and whose id is the decimal form of a clock
    reading. *)
Definition well_keyed (st : state) : Prop :=
  forall k l,
    In (k, l) (users st) ->
    inherited k = false /\
    exists u, deref (objects st) l = Some u /\
              truthy (User.password u) = true /\
              length_below (User.password u) 6 = false /\
              exists n, User.id u = toString n.

Definition view_name (v : view) : value :=
  match v with
  | Account _ _ n => n
  | Profile _ _ n _ _ _ _ => n
  end.

(** A body that asks for no change: no truthy name, no truthy email and none
    of the four profile keys. *)
Definition asks_nothing (b : Body.t) : bool :=
  negb (truthy (Body.name b)) && negb (truthy (Body.email b)) &&
  strict_eq (Body.mobileNumber b) VUndefined &&
  strict_eq (Body.alternativeNumber b) VUndefined &&
  strict_eq (Body.aadharNumber b) VUndefined &&
  strict_eq (Body.avatar b) VUndefined.

(** ** The main server: local address, allowed origins, login notices

    The second server file finds the address of the machine on the local
    network, decides which origins may call it, and mails a notice after a
    login.  The transport of the mailer is an argument: a function that
    takes a mail and returns the message of the error it throws, if any. *)

(** [s.includes(sub)] *)
Fixpoint includes (s sub : string) : bool :=
  prefix sub s ||
  match s with
  | EmptyString => false
  | String _ r => includes r sub
  end.

(** An entry of [os.networkInterfaces()]. *)
Record net_interface : Type := mkInterface {
  family : string;
  internal : bool;
  address : string
}.

(** The test of the inner [forEach]. *)
Definition on_local_network (netInterface : net_interface) : bool :=
  (family netInterface =? "IPv4") && negb (internal netInterface) &&
  prefix "192.168." (address netInterface).

(** [localIP] after the two nested [forEach] over the interfaces, taken in
    the order of [Object.keys]; it starts from the fallback address. *)
Definition localIP (networkInterfaces : list (string * list net_interface))
  : string :=
  fold_left
    (fun ip entry =>
       fold_left (fun ip netInterface =>
                    if on_local_network netInterface
                    then address netInterface else ip)
                 (snd entry) ip)
    networkInterfaces "192.168.1.4".

Definition allowedOrigins (ip : string) : list string :=
  [ "http://localhost:5173";
    "http://localhost:3000";
    "http://" ++ ip ++ ":5173";
    "http://" ++ ip ++ ":3000";
    "http://localhost:5000";
    "http://" ++ ip ++ ":5000";
    "https://frontend-5e8w8456g-rinabartemp05-1146s-projects.vercel.app";
    "https://frontend-oukmc3i0x-rinabartemp05-1146s-projects.vercel.app" ].

(** The [origin] function given to [cors]: [true] for [callback(null, true)],
    [false] for [callback(new Error(msg), false)].  [origin] is the header,
    [None] when the request has none. *)
Definition origin_allowed (ip : string) (NODE_ENV : option string)
           (origin : option string) : bool :=
  match origin with
  | None => true
  | Some o =>
      if o =? "" then true
      else if includes o "localhost" || includes o "127.0.0.1" ||
              includes o ip || includes o "192.168." then true
      else if existsb (String.eqb o) (allowedOrigins ip) then true
      else if match NODE_ENV with
              | Some e => e =? "development"
              | None => false
              end then true
      else false
  end.

Module Notice.
(** The body of [/api/auth/send-login-notification]. *)
Record t : Type := mk {
  email : value;
  timestamp : value;
  deviceType : value;
  browser : value;
  ipAddress : value;
  location : value;
  loginType : value
}.
End Notice.

(** The addressee and the subject of [mailOptions]; the sender and the HTML
    body, which no branch of the handler depends on, are left out. *)
Record mail : Type := mkMail {
  to : value;
  subject : string
}.

(** The JSON answers of the notification handler. *)
Record notice_response : Type := mkNotice {
  n_status : N;
  n_success : bool;
  n_message : option string;
  n_error : option string;
  n_simulated : option bool;
  n_data : option Notice.t
}.

(** [POST /api/auth/send-login-notification].  [ip] is [req.ip], [now] is
    [new Date().toISOString()]; the result is the answer and the mails
    handed to [transporter.sendMail]. *)
Definition send_login_notification
           (isEmailConfigured : bool)
           (transporter : option (mail -> option string))
           (ip : value) (now : string) (b : Notice.t)
  : notice_response * list mail :=
  if negb (truthy (Notice.email b)) then
    (mkNotice 400 false None (Some "Email is required") None None, [])
  else
    match isEmailConfigured, transporter with
    | true, Some sendMail =>
        let mailOptions :=
          mkMail (Notice.email b)
                 (if strict_eq (Notice.loginType b) (VStr "admin")
                  then "Admin Login Detected - Medicover"
                  else "New Login Detected - Medicover") in
        match sendMail mailOptions with
        | None =>
            (mkNotice 200 true (Some "Login notification sent successfully")
                      None None None, [mailOptions])
        | Some error =>
            (mkNotice 200 true
                      (Some "Login continued (email notification failed)")
                      (Some error) (Some true) None, [mailOptions])
        end
    | _, _ =>
        (mkNotice 200 true
                  (Some "Login notification simulated (email not configured)")
                  None (Some true)
                  (Some (Notice.mk
                           (Notice.email b)
                           (or_else (Notice.timestamp b) (VStr now))
                           (or_else (Notice.deviceType b) (VStr "Unknown"))
                           (or_else (Notice.browser b) (VStr "Unknown"))
                           (or_else (Notice.ipAddress b) ip)
                           (or_else (Notice.location b) (VStr "Unknown"))
                           (or_else (Notice.loginType b) (VStr "user")))),
         [])
    end.



(** [connectToDatabase]: the value of [isMongoConnected] afterwards and the
    URIs handed to [mongoose.connect].  [connect] is the driver: it returns
    the message of the error it throws, if any. *)
Definition connectToDatabase (MONGODB_URI : option string)
           (connect : string -> option string) : bool * list string :=
  match MONGODB_URI with
  | Some uri =>
      if negb (uri =? "") && negb (includes uri "xxxxx") then
        if includes uri "YOUR_PASSWORD_HERE" ||
           includes uri "<db_password>" ||
           includes uri "your-actual-password"
        then (false, [])
        else match connect uri with
             | None => (true, [uri])
             | Some _ => (false, [uri])
             end
      else (false, [])
  | None => (false, [])
  end.

(** * Properties *)

(** ** Strings, tokens and ids *)

Lemma split_without_separator (sep : ascii) (s : string) :
  occurs sep s = false -> split sep s = [s].
Proof.
  induction s as [|c r IH]; simpl; intros H; [reflexivity|].
  apply orb_false_iff in H as [Hc Hr].
  rewrite Hc, (IH Hr). reflexivity.
Qed.

Lemma digits_have_no_dash (d : uint) :
  occurs "-" (NilEmpty.string_of_uint d) = false.
Proof. induction d; simpl; auto. Qed.

Lemma toString_has_no_dash (n : N) : occurs "-" (toString n) = false.
Proof.
  unfold toString, NilZero.string_of_uint.
  destruct (N.to_uint n); try reflexivity; apply digits_have_no_dash.
Qed.

Lemma N_to_uint_nonnil (n : N) : N.to_uint n <> Nil.
Proof.
  destruct n as [|p]; simpl; [discriminate|].
  apply DecimalPos.Unsigned.to_uint_nonnil.
Qed.

Lemma toString_inj (n m : N) : toString n = toString m -> n = m.
Proof.
  unfold toString. intros H.
  apply DecimalN.Unsigned.to_uint_inj.
  pose proof (NilZero.usu _ (N_to_uint_nonnil n)) as Hn.
  pose proof (NilZero.usu _ (N_to_uint_nonnil m)) as Hm.
  rewrite H in Hn. congruence.
Qed.

(** The token minted for a dash-free id decodes to that id. *)
Lemma token_user_id_mint (i : string) :
  occurs "-" i = false -> token_user_id (VStr ("token-" ++ i)) = VStr i.
Proof.
  intros H. unfold token_user_id. simpl.
  rewrite (split_without_separator _ _ H). reflexivity.
Qed.

Lemma bearer_mint (t : string) :
  occurs " " t = false -> bearer (Some ("Bearer " ++ t)) = VStr t.
Proof.
  intros H. unfold bearer. simpl.
  rewrite (split_without_separator _ _ H). reflexivity.
Qed.

Lemma truthy_defined (v : value) :
  truthy v = true -> strict_eq VUndefined v = false.
Proof. destruct v; simpl; try discriminate; reflexivity. Qed.

Lemma strict_eq_refl (v : value) :
  primitive v = true -> strict_eq v v = true.
Proof.
  destruct v as [| |c|n|s| |]; simpl; try discriminate; intros _;
    auto using Bool.eqb_reflx, Z.eqb_refl, String.eqb_refl.
Qed.

Lemma strict_eq_VStr (s : string) (v : value) :
  strict_eq (VStr s) v = true <-> v = VStr s.
Proof.
  destruct v; simpl; split; try discriminate.
  - intros H. apply String.eqb_eq in H. now subst.
  - intros [= ->]. apply String.eqb_refl.
Qed.

(** ** The heap *)

Lemma deref_modify (l l' : loc) (f : User.t -> User.t) (h : heap) :
  deref (modify l f h) l' =
  if Nat.eqb l' l then option_map f (deref h l') else deref h l'.
Proof.
  unfold deref. revert l l'.
  induction h as [|u r IH]; intros l l'.
  - simpl. destruct l', (Nat.eqb _ _); reflexivity.
  - destruct l as [|l]; destruct l' as [|l']; simpl; try reflexivity.
    apply IH.
Qed.

Lemma length_modify (l : loc) (f : User.t -> User.t) (h : heap) :
  List.length (modify l f h) = List.length h.
Proof.
  revert l. induction h as [|u r IH]; intros [|l]; simpl; auto.
Qed.

Lemma deref_alloc_old (h : heap) (u v : User.t) (l : loc) :
  deref h l = Some v -> deref (h ++ [u])%list l = Some v.
Proof.
  unfold deref. intros H.
  rewrite nth_error_app1; [assumption|].
  apply nth_error_Some. congruence.
Qed.

Lemma deref_alloc_new (h : heap) (u : User.t) :
  deref (h ++ [u])%list (List.length h) = Some u.
Proof.
  unfold deref. rewrite nth_error_app2, Nat.sub_diag; [reflexivity|lia].
Qed.

Lemma deref_assign_if_defined (v : value) (set : value -> User.t -> User.t)
      (l l' : loc) (h : heap) :
  deref (assign_if_defined v set l h) l' =
  if Nat.eqb l' l && negb (strict_eq v VUndefined)
  then option_map (set v) (deref h l') else deref h l'.
Proof.
  unfold assign_if_defined.
  destruct (negb (strict_eq v VUndefined)).
  - rewrite deref_modify, andb_true_r. reflexivity.
  - rewrite andb_false_r. reflexivity.
Qed.

(** ** The property list *)

Lemma own_In (k : string) (l : loc) (ps : props) :
  own k ps = Some l -> In (k, l) ps.
Proof.
  induction ps as [|[k' l'] r IH]; simpl; [discriminate|].
  destruct (String.eqb_spec k' k) as [->|Hk].
  - intros [= ->]. now left.
  - intros H. right. auto.
Qed.

Lemma own_None (k : string) (ps : props) :
  own k ps = None <-> ~ In k (keys ps).
Proof.
  induction ps as [|[k' l'] r IH]; simpl.
  - tauto.
  - destruct (String.eqb_spec k' k) as [->|Hk].
    + split; [discriminate|]. intros H. exfalso. apply H. now left.
    + rewrite IH. tauto.
Qed.

Lemma In_own (k : string) (l : loc) (ps : props) :
  NoDup (keys ps) -> In (k, l) ps -> own k ps = Some l.
Proof.
  induction ps as [|[k' l'] r IH]; simpl; [tauto|].
  intros Hnd [H|H].
  - injection H as -> ->. now rewrite String.eqb_refl.
  - inversion Hnd as [|? ? Hnot Hnd']; subst.
    destruct (String.eqb_spec k' k) as [->|Hk]; [|auto].
    exfalso. apply Hnot. apply (in_map fst) in H. exact H.
Qed.

Lemma insert_prop_perm (k : string) (l : loc) (ps : props) :
  Permutation (insert_prop k l ps) ((k, l) :: ps).
Proof.
  induction ps as [|[k' l'] r IH]; simpl; [reflexivity|].
  destruct (precedes k k'); [reflexivity|].
  rewrite IH. apply perm_swap.
Qed.

Lemma delete_prop_filter (k : string) (ps : props) :
  delete_prop k ps = filter (fun kl => negb (fst kl =? k)) ps.
Proof.
  induction ps as [|[k' l'] r IH]; simpl; [reflexivity|].
  destruct (k' =? k); simpl; congruence.
Qed.

Lemma filter_perm {A : Type} (f : A -> bool) (xs ys : list A) :
  Permutation xs ys -> Permutation (filter f xs) (filter f ys).
Proof.
  induction 1; simpl.
  - constructor.
  - destruct (f x); auto.
  - destruct (f x), (f y); auto. apply perm_swap.
  - etransitivity; eassumption.
Qed.

Lemma delete_prop_absent (k : string) (ps : props) :
  ~ In k (keys ps) -> delete_prop k ps = ps.
Proof.
  induction ps as [|[k' l'] r IH]; simpl; [reflexivity|].
  intros H. destruct (String.eqb_spec k' k) as [->|Hk]; [tauto|].
  rewrite IH; tauto.
Qed.

Lemma delete_prop_perm (k : string) (l : loc) (ps : props) :
  NoDup (keys ps) -> In (k, l) ps ->
  Permutation ps ((k, l) :: delete_prop k ps).
Proof.
  induction ps as [|[k' l'] r IH]; simpl; [tauto|].
  intros Hnd H. inversion Hnd as [|? ? Hnot Hnd']; subst.
  destruct H as [H|H].
  - injection H as -> ->. rewrite String.eqb_refl.
    now rewrite delete_prop_absent.
  - destruct (String.eqb_spec k' k) as [->|Hk].
    + exfalso. apply Hnot. apply (in_map fst) in H. exact H.
    + rewrite (IH Hnd' H) at 1. apply perm_swap.
Qed.

(** Re-keying an object: the property list loses [(k, l)] and gains
    [(k', l)], up to the order of enumeration. *)
Lemma rekey_perm (k k' : string) (l : loc) (ps : props) :
  NoDup (keys ps) -> In (k, l) ps -> own k' ps = None -> k' <> k ->
  exists rest,
    Permutation ps ((k, l) :: rest) /\
    Permutation (delete_prop k (set_prop k' l ps)) ((k', l) :: rest).
Proof.
  intros Hnd Hin Hown Hneq. exists (delete_prop k ps). split.
  - now apply delete_prop_perm.
  - unfold set_prop. rewrite Hown.
    rewrite !delete_prop_filter.
    rewrite (filter_perm _ _ _ (insert_prop_perm k' l ps)). simpl.
    destruct (String.eqb_spec k' k); [contradiction|reflexivity].
Qed.

Lemma In_delete_prop (k : string) (kl : string * loc) (ps : props) :
  In kl (delete_prop k ps) <-> In kl ps /\ fst kl <> k.
Proof.
  rewrite delete_prop_filter, filter_In.
  destruct (String.eqb_spec (fst kl) k); simpl; intuition congruence.
Qed.

Lemma In_set_prop_new (k : string) (l : loc) (kl : string * loc)
      (ps : props) :
  own k ps = None -> (In kl (set_prop k l ps) <-> kl = (k, l) \/ In kl ps).
Proof.
  intros H. unfold set_prop. rewrite H.
  split; intros Hin.
  - apply (Permutation_in _ (insert_prop_perm k l ps)) in Hin.
    destruct Hin; auto.
  - apply (Permutation_in _ (Permutation_sym (insert_prop_perm k l ps))).
    destruct Hin; [left|right]; auto.
Qed.

Lemma own_set_prop_new (k : string) (l : loc) (ps : props) :
  own k ps = None -> own k (set_prop k l ps) = Some l.
Proof.
  intros H. unfold set_prop. rewrite H.
  induction ps as [|[k' l'] r IH]; simpl in *.
  - now rewrite String.eqb_refl.
  - destruct (String.eqb_spec k' k) as [->|Hk]; [discriminate|].
    destruct (precedes k k'); simpl.
    + now rewrite String.eqb_refl.
    + destruct (String.eqb_spec k' k); [contradiction|auto].
Qed.

Lemma defined_false (ps : props) (k : string) :
  defined (get_prop ps k) = false -> own k ps = None.
Proof.
  unfold get_prop. destruct (own k ps); [discriminate|reflexivity].
Qed.

Lemma own_delete_prop (k k' : string) (ps : props) :
  own k' (delete_prop k ps) = if k' =? k then None else own k' ps.
Proof.
  induction ps as [|[k0 l0] r IH]; simpl.
  - now destruct (k' =? k).
  - destruct (String.eqb_spec k0 k) as [->|Hk0].
    + rewrite IH. destruct (String.eqb_spec k' k) as [->|Hk'];
        [reflexivity|].
      destruct (String.eqb_spec k k'); [congruence|reflexivity].
    + simpl. rewrite IH.
      destruct (String.eqb_spec k0 k') as [->|Hk0'];
        [|reflexivity].
      destruct (String.eqb_spec k' k); [contradiction|reflexivity].
Qed.

(** ** The id scan *)

Lemma find_user_sound (h : heap) (ps : props) (v : value) (k : string)
      (l : loc) :
  find_user h ps v = Some (k, l) ->
  In (k, l) ps /\ exists u, deref h l = Some u /\ v = VStr (User.id u).
Proof.
  induction ps as [|[k' l'] r IH]; simpl; [discriminate|].
  destruct (deref h l') as [u|] eqn:Hu.
  - destruct (strict_eq (VStr (User.id u)) v) eqn:Hv.
    + intros [= -> ->]. split; [now left|].
      exists u. split; [assumption|]. now apply strict_eq_VStr.
    + intros H. destruct (IH H) as [Hin Hex]. split; [now right|assumption].
  - intros H. destruct (IH H) as [Hin Hex]. split; [now right|assumption].
Qed.

Lemma find_user_None (h : heap) (ps : props) (v : value) :
  find_user h ps v = None <->
  (forall k l u, In (k, l) ps -> deref h l = Some u -> VStr (User.id u) <> v).
Proof.
  induction ps as [|[k' l'] r IH]; simpl.
  - split; [intros _ k l u []|reflexivity].
  - destruct (deref h l') as [u'|] eqn:Hu'.
    + destruct (strict_eq (VStr (User.id u')) v) eqn:Hv.
      * split; [discriminate|]. intros H. exfalso.
        apply strict_eq_VStr in Hv.
        apply (H k' l' u'); [now left|assumption|congruence].
      * rewrite IH. split.
        -- intros H k l u [Hin|Hin] Hd; [|now apply (H k l u)].
           injection Hin as <- <-. rewrite Hu' in Hd. injection Hd as <-.
           intros Heq. symmetry in Heq. apply strict_eq_VStr in Heq.
           congruence.
        -- intros H k l u Hin. apply (H k l u). now right.
    + rewrite IH. split.
      * intros H k l u [Hin|Hin] Hd; [|now apply (H k l u)].
        injection Hin as <- <-. congruence.
      * intros H k l u Hin. apply (H k l u). now right.
Qed.

(** The scan only reads the [id] of the objects. *)
Lemma find_user_ext (h h' : heap) (ps : props) (v : value) :
  (forall l, option_map User.id (deref h' l) = option_map User.id (deref h l)) ->
  find_user h' ps v = find_user h ps v.
Proof.
  intros Hid. induction ps as [|[k l] r IH]; simpl; [reflexivity|].
  specialize (Hid l).
  destruct (deref h' l) as [u'|], (deref h l) as [u|]; simpl in Hid;
    try discriminate; [|assumption].
  injection Hid as ->. now rewrite IH.
Qed.

Lemma length_assign_if_defined (v : value) (set : value -> User.t -> User.t)
      (l : loc) (h : heap) :
  List.length (assign_if_defined v set l h) = List.length h.
Proof.
  unfold assign_if_defined. destruct (negb _); [apply length_modify|reflexivity].
Qed.

Lemma strict_eq_neq (v : value) (s : string) :
  strict_eq v (VStr s) = false <-> v <> VStr s.
Proof.
  destruct v; simpl; split; try congruence; try discriminate.
  - intros H [= ->]. rewrite String.eqb_refl in H. discriminate.
  - intros H. destruct (String.eqb_spec s0 s); [congruence|reflexivity].
Qed.

(** The four conditional assignments to the profile properties. *)
Ltac profile_writes Hh1 :=
  let l' := fresh "l'" in
  intros l'; rewrite !deref_assign_if_defined, Hh1; unfold assigned;
  destruct (Nat.eqb l' _); simpl; [|reflexivity];
  repeat match goal with
         | |- context [negb (strict_eq ?v VUndefined)] =>
             destruct (negb (strict_eq v VUndefined)); simpl
         end; reflexivity.

Ltac name_heap b st l u :=
  match goal with
  | |- context [deref ?h5 l] =>
      assert (forall l', deref h5 l' =
                         if Nat.eqb l' l then Some (assigned b u)
                         else deref (objects st) l')
  end.

Lemma update_profile_outcome (authorization : option string) (b : Body.t)
      (st : state) :
  update_outcome authorization b st
                 (fst (update_profile authorization b st))
                 (snd (update_profile authorization b st)).
Proof.
  unfold update_profile.
  destruct (truthy (bearer authorization)) eqn:Htok; simpl;
    [|now constructor].
  destruct (find_user _ _ _) as [[userEmail l]|] eqn:Hfind; simpl;
    [|now constructor].
  destruct (find_user_sound _ _ _ _ _ Hfind) as [Hin [u [Hu Hid]]].
  set (h1 := if truthy (Body.name b) then _ else objects st).
  assert (Hlen1 : List.length h1 = List.length (objects st)).
  { subst h1. destruct (truthy (Body.name b));
      [apply length_modify|reflexivity]. }
  assert (Hh1 : forall l',
             deref h1 l' =
             if Nat.eqb l' l
             then Some (if truthy (Body.name b)
                        then User.set_name (Body.name b) u else u)
             else deref (objects st) l').
  { intros l'. subst h1. destruct (truthy (Body.name b)).
    - rewrite deref_modify. destruct (Nat.eqb_spec l' l) as [->|];
        [now rewrite Hu|reflexivity].
    - destruct (Nat.eqb_spec l' l) as [->|]; [assumption|reflexivity]. }
  destruct (truthy (Body.email b)) eqn:Hemail; simpl.
  - destruct (strict_eq (Body.email b) (VStr userEmail)) eqn:Hsame; simpl.
    + name_heap b st l u; [profile_writes Hh1|].
      rewrite (H l), Nat.eqb_refl. simpl.
      apply Updated with (userEmail := userEmail) (l := l); try assumption.
      * right. split; [|reflexivity]. right.
        destruct (Body.email b); simpl in Hsame; try discriminate.
        apply String.eqb_eq in Hsame. now subst.
      * now rewrite !length_assign_if_defined.
    + apply strict_eq_neq in Hsame.
      destruct (defined (get_prop (users st) (to_string (Body.email b))))
        eqn:Hdef; simpl.
      * apply EmailTaken with (userEmail := userEmail) (l := l) (u := u);
          assumption.
      * name_heap b st l u; [profile_writes Hh1|].
        rewrite (H l), Nat.eqb_refl. simpl.
        apply Updated with (userEmail := userEmail) (l := l); try assumption.
        -- left. repeat split; auto. now apply defined_false.
        -- now rewrite !length_assign_if_defined.
  - name_heap b st l u; [profile_writes Hh1|].
    rewrite (H l), Nat.eqb_refl. simpl.
    apply Updated with (userEmail := userEmail) (l := l); try assumption.
    + right. split; [now left|reflexivity].
    + now rewrite !length_assign_if_defined.
Qed.

(** ** The outcome of [register] *)

Lemma register_created (now : N) (b : Body.t) (st : state) :
  status (snd (register now b st)) = 201%N ->
  truthy (Body.email b) = true /\
  truthy (Body.password b) = true /\
  length_below (Body.password b) 6 = false /\
  defined (get_prop (users st) (to_string (Body.email b))) = false /\
  register now b st =
  (mkState (objects st ++ [new_user now b])%list
           (set_prop (to_string (Body.email b)) (List.length (objects st))
                     (users st)),
   mkResponse 201 true (Some "Registered successfully")
              (Some ("token-" ++ toString now))
              (Some (Account (toString now) (Body.email b)
                             (User.name (new_user now b))))).
Proof.
  unfold register, new_user.
  destruct (truthy (Body.email b)); simpl; [|discriminate].
  destruct (truthy (Body.password b)); simpl; [|discriminate].
  destruct (length_below (Body.password b) 6); simpl; [discriminate|].
  destruct (defined _); simpl; [discriminate|].
  destruct (name_or_local_part _ _); simpl; [|discriminate].
  intros _. repeat split; auto.
Qed.

Lemma register_created_name (now : N) (b : Body.t) (st : state) :
  status (snd (register now b st)) = 201%N ->
  name_or_local_part (Body.name b) (Body.email b) =
  Some (User.name (new_user now b)).
Proof.
  unfold register, new_user.
  destruct (_ || _); [simpl; discriminate|].
  destruct (length_below _ _); [simpl; discriminate|].
  destruct (defined _); [simpl; discriminate|].
  destruct (name_or_local_part _ _); [reflexivity|simpl; discriminate].
Qed.

Lemma register_rejected (now : N) (b : Body.t) (st : state) :
  status (snd (register now b st)) <> 201%N -> fst (register now b st) = st.
Proof.
  unfold register.
  destruct (_ || _); [reflexivity|].
  destruct (length_below _ _); [reflexivity|].
  destruct (defined _); [reflexivity|].
  destruct (name_or_local_part _ _); [|reflexivity].
  simpl. congruence.
Qed.

(** ** Well-formedness is an invariant *)

Lemma wf_init : wf init.
Proof. split; simpl; constructor. Qed.

Lemma wf_perm (h h' : heap) (ps ps' : props) :
  Permutation ps ps' -> List.length h' = List.length h ->
  wf (mkState h ps) -> wf (mkState h' ps').
Proof.
  intros Hp Hlen [Hk Hl Hc]. simpl in *. split; simpl.
  - eapply Permutation_NoDup; [|exact Hk]. now apply Permutation_map.
  - eapply Permutation_NoDup; [|exact Hl]. now apply Permutation_map.
  - rewrite Hlen. eapply Permutation_Forall; [|exact Hc].
    now apply Permutation_map.
Qed.

Lemma register_wf (now : N) (b : Body.t) (st : state) :
  wf st -> wf (fst (register now b st)).
Proof.
  intros Hwf.
  destruct (N.eq_dec (status (snd (register now b st))) 201) as [Hs|Hs];
    [|now rewrite register_rejected].
  destruct (register_created _ _ _ Hs) as (_ & _ & _ & Hdef & ->). simpl.
  apply defined_false in Hdef.
  destruct Hwf as [Hk Hl Hc].
  unfold set_prop. rewrite Hdef.
  pose proof (insert_prop_perm (to_string (Body.email b))
                               (List.length (objects st)) (users st)) as Hp.
  split; simpl.
  - eapply Permutation_NoDup;
      [apply Permutation_map, Permutation_sym, Hp|]. simpl.
    constructor; [now apply own_None|assumption].
  - eapply Permutation_NoDup;
      [apply Permutation_map, Permutation_sym, Hp|]. simpl.
    constructor; [|assumption].
    intros Hin. rewrite Forall_forall in Hc. apply Hc in Hin. lia.
  - eapply Permutation_Forall;
      [apply Permutation_map, Permutation_sym, Hp|]. simpl.
    rewrite length_app. simpl. constructor; [lia|].
    eapply Forall_impl; [|exact Hc]. simpl. intros; lia.
Qed.

Lemma update_profile_wf (authorization : option string) (b : Body.t)
      (st : state) :
  wf st -> wf (fst (update_profile authorization b st)).
Proof.
  intros Hwf.
  destruct (update_profile_outcome authorization b st)
    as [ | | userEmail l u h _ _ _ _ _ _ Hlen _
       | userEmail l u h ps _ Hfind _ Hps Hlen _ ]; try assumption.
  - destruct st as [h0 ps0]. eapply wf_perm; eauto.
  - destruct (find_user_sound _ _ _ _ _ Hfind) as [Hin _].
    destruct Hps as [(_ & Hneq & Hown & ->)|(_ & ->)].
    + destruct (@rekey_perm userEmail (to_string (Body.email b)) l
                            (users st))
        as (rest & Hp1 & Hp2); auto using wf_keys.
      { intros Heq. apply own_None in Hown. apply Hown. rewrite Heq.
        apply (in_map fst) in Hin. exact Hin. }
      destruct st as [h0 ps0]. simpl in *.
      apply wf_perm
        with (h := h0) (ps := (to_string (Body.email b), l) :: rest);
        [now symmetry|assumption|].
      assert (Hwf' : wf (mkState h0 ((userEmail, l) :: rest)))
        by (eapply wf_perm; eauto).
      destruct Hwf' as [Hk Hl Hc]. simpl in *.
      split; simpl.
      * constructor; [|now inversion Hk].
        apply own_None in Hown. intros Hin'. apply Hown.
        apply (Permutation_in _ (Permutation_sym (Permutation_map fst Hp1))).
        now right.
      * assumption.
      * assumption.
    + destruct st as [h0 ps0]. eapply wf_perm; eauto.
Qed.

Lemma handle_wf (q : request) (st : state) : wf st -> wf (fst (handle q st)).
Proof.
  intros Hwf. destruct q as [now b|b|a|a b|b|]; simpl.
  - now apply register_wf.
  - unfold login. destruct (_ || _); [assumption|].
    destruct (get_prop _ _); [destruct (deref _ _)| |];
      repeat match goal with |- context [if ?c then _ else _] =>
                               destruct c end; assumption.
  - unfold me. destruct (negb _); [assumption|].
    destruct (find_user _ _ _) as [[k l]|]; [|assumption].
    destruct (deref _ _); assumption.
  - now apply update_profile_wf.
  - unfold forgot_password. destruct (negb _); [assumption|].
    destruct (negb _); assumption.
  - assumption.
Qed.

Lemma run_wf (qs : list request) (st : state) : wf st -> wf (run qs st).
Proof.
  revert st. induction qs as [|q r IH]; simpl; intros st Hwf; [assumption|].
  apply IH. now apply handle_wf.
Qed.

Lemma reachable_wf (st : state) : reachable st -> wf st.
Proof. intros [qs ->]. apply run_wf, wf_init. Qed.

(** ** Fields of the object after the assignments *)

Lemma assigned_id (b : Body.t) (u : User.t) :
  User.id (assigned b u) = User.id u.
Proof.
  unfold assigned.
  repeat match goal with
         | |- context [if ?c then _ else _] => destruct c; simpl
         end; reflexivity.
Qed.

Lemma assigned_email (b : Body.t) (u : User.t) :
  User.email (assigned b u) = User.email u.
Proof.
  unfold assigned.
  repeat match goal with
         | |- context [if ?c then _ else _] => destruct c; simpl
         end; reflexivity.
Qed.

Lemma assigned_password (b : Body.t) (u : User.t) :
  User.password (assigned b u) = User.password u.
Proof.
  unfold assigned.
  repeat match goal with
         | |- context [if ?c then _ else _] => destruct c; simpl
         end; reflexivity.
Qed.

Lemma assigned_name (b : Body.t) (u : User.t) :
  User.name (assigned b u) =
  if truthy (Body.name b) then Body.name b else User.name u.
Proof.
  unfold assigned.
  destruct (truthy (Body.name b));
    repeat match goal with
           | |- context [if negb ?c then _ else _] => destruct c; simpl
           end; reflexivity.
Qed.

Lemma assigned_profile (b : Body.t) (u : User.t) :
  User.mobileNumber (assigned b u) =
  (if strict_eq (Body.mobileNumber b) VUndefined
   then User.mobileNumber u else Body.mobileNumber b) /\
  User.alternativeNumber (assigned b u) =
  (if strict_eq (Body.alternativeNumber b) VUndefined
   then User.alternativeNumber u else Body.alternativeNumber b) /\
  User.aadharNumber (assigned b u) =
  (if strict_eq (Body.aadharNumber b) VUndefined
   then User.aadharNumber u else Body.aadharNumber b) /\
  User.avatar (assigned b u) =
  (if strict_eq (Body.avatar b) VUndefined
   then User.avatar u else Body.avatar b).
Proof.
  unfold assigned.
  destruct (truthy (Body.name b));
    destruct (strict_eq (Body.mobileNumber b) VUndefined);
    destruct (strict_eq (Body.alternativeNumber b) VUndefined);
    destruct (strict_eq (Body.aadharNumber b) VUndefined);
    destruct (strict_eq (Body.avatar b) VUndefined);
    simpl; auto.
Qed.

(** Inversion of a successful [update-profile]. *)
Lemma update_profile_updated (authorization : option string) (b : Body.t)
      (st : state) :
  status (snd (update_profile authorization b st)) = 200%N ->
  exists userEmail l u,
    find_user (objects st) (users st)
              (token_user_id (bearer authorization)) = Some (userEmail, l) /\
    deref (objects st) l = Some u /\
    (truthy (Body.email b) = true /\ Body.email b <> VStr userEmail /\
     own (to_string (Body.email b)) (users st) = None /\
     users (fst (update_profile authorization b st)) =
     delete_prop userEmail
                 (set_prop (to_string (Body.email b)) l (users st))
     \/
     (truthy (Body.email b) = false \/ Body.email b = VStr userEmail) /\
     users (fst (update_profile authorization b st)) = users st) /\
    (forall l',
        deref (objects (fst (update_profile authorization b st))) l' =
        if Nat.eqb l' l then Some (assigned b u) else deref (objects st) l') /\
    snd (update_profile authorization b st) =
    mkResponse 200 true (Some "Profile updated successfully") None
               (Some (profile_view (assigned b u))).
Proof.
  pose proof (update_profile_outcome authorization b st) as Ho.
  destruct (update_profile authorization b st) as [st' r]. simpl in *.
  destruct Ho as [ | | | userEmail l u h ps _ Hfind Hu Hps _ Hh ]; simpl;
    try discriminate.
  intros _. exists userEmail, l, u. repeat split; auto.
Qed.

(** ** Registration *)

(** C4, as stated, fails: with a stored email and a password of three
    characters the length check comes first and the answer is a validation
    error, not the conflict. *)
Lemma short_password_before_conflict :
  ~ taken_email_conflicts 3000 (account (VStr "a@x.com") (VStr "123")
                                        VUndefined) two_users.
Proof.
  intros H. specialize (H 0 eq_refl). vm_compute in H. discriminate.
Qed.

(** C4, amended.  [register] answers 400 with a validation message when the
    email or the password is missing and when the password has a length
    below six, and 400 with the conflict message when the email already
    names a user and the request has passed those two checks; the store is
    the same after every rejected registration. *)
Theorem register_rejections (now : N) (b : Body.t) (st : state) :
  (truthy (Body.email b) = false \/ truthy (Body.password b) = false ->
   register now b st = (st, failure 400 "Email and password required") /\
   error_kind (snd (register now b st)) = Some ValidationError) /\
  (forall n, length_of (Body.password b) = Some n -> (n < 6)%Z ->
   fst (register now b st) = st /\
   status (snd (register now b st)) = 400%N /\
   error_kind (snd (register now b st)) = Some ValidationError) /\
  (forall l,
      truthy (Body.email b) = true ->
      length_below (Body.password b) 6 = false ->
      truthy (Body.password b) = true ->
      own (to_string (Body.email b)) (users st) = Some l ->
      register now b st = (st, failure 400 "User already exists") /\
      error_kind (snd (register now b st)) = Some ConflictError) /\
  (status (snd (register now b st)) <> 201%N ->
   fst (register now b st) = st).
Proof.
  split; [|split; [|split]].
  - intros H. assert (Hor : negb (truthy (Body.email b))
                            || negb (truthy (Body.password b)) = true).
    { destruct H as [-> | ->]; simpl; [reflexivity|apply orb_true_r]. }
    unfold register. rewrite Hor. split; reflexivity.
  - intros n Hn Hlt. unfold register.
    destruct (negb (truthy (Body.email b)) || negb (truthy (Body.password b)));
      [repeat split|].
    unfold length_below. rewrite Hn.
    destruct (Z.ltb_spec n 6); [repeat split|lia].
  - intros l He Hlen Hp Hown. unfold register, get_prop.
    rewrite He, Hp, Hlen, Hown. split; reflexivity.
  - apply register_rejected.
Qed.

Lemma register_rejections_witness :
  (register 3000 (account VUndefined (VStr "secret1") VUndefined) two_users =
   (two_users, failure 400 "Email and password required")) /\
  (fst (register 3000 (account (VStr "c@x.com") (VStr "12345") VUndefined)
                 two_users) = two_users /\
   error_kind (snd (register 3000 (account (VStr "c@x.com") (VStr "12345")
                                           VUndefined) two_users))
   = Some ValidationError) /\
  (register 3000 (account (VStr "a@x.com") (VStr "another") VUndefined)
            two_users =
   (two_users, failure 400 "User already exists")).
Proof.
  split; [|split].
  - apply (register_rejections 3000
             (account VUndefined (VStr "secret1") VUndefined) two_users).
    left. reflexivity.
  - pose proof (register_rejections 3000
                  (account (VStr "c@x.com") (VStr "12345") VUndefined)
                  two_users) as (_ & H & _).
    destruct (H 5%Z eq_refl) as (H1 & _ & H3); [lia|].
    split; assumption.
  - pose proof (register_rejections 3000
                  (account (VStr "a@x.com") (VStr "another") VUndefined)
                  two_users) as (_ & _ & H & _).
    apply (H 0); reflexivity.
Defined.

(** C6, as stated, fails for a password that is an array of six elements:
    the registration answers 201 and the login with the same body 401, the
    stored array and the array of the login being two objects. *)
Lemma array_password_never_logs_in :
  ~ same_credentials_log_in
      1000
      (account (VStr "a@x.com")
               (VArr [VNum 1; VNum 2; VNum 3; VNum 4; VNum 5; VNum 6])
               VUndefined)
      init.
Proof.
  intros H. specialize (H 6%Z eq_refl ltac:(lia) eq_refl).
  vm_compute in H. discriminate.
Qed.

(** C6, amended.  After a successful registration with a password that is
    a string, a number or a boolean, a login with the same email and
    password succeeds, leaves the store alone and returns the very token and
    user of the registration; the token decodes to the id of that user. *)
Theorem register_then_login (now : N) (b b' : Body.t) (st : state) :
  status (snd (register now b st)) = 201%N ->
  primitive (Body.password b) = true ->
  Body.email b' = Body.email b ->
  Body.password b' = Body.password b ->
  length_below (Body.password b) 6 = false /\
  fst (login b' (fst (register now b st))) = fst (register now b st) /\
  status (snd (login b' (fst (register now b st)))) = 200%N /\
  token (snd (register now b st)) = Some ("token-" ++ toString now) /\
  token (snd (login b' (fst (register now b st)))) =
  token (snd (register now b st)) /\
  user (snd (login b' (fst (register now b st)))) =
  user (snd (register now b st)) /\
  option_map view_id (user (snd (register now b st))) = Some (toString now) /\
  token_user_id (VStr ("token-" ++ toString now)) = VStr (toString now).
Proof.
  intros Hs Hprim He Hp.
  destruct (register_created _ _ _ Hs) as (Hte & Htp & Hlen & Hdef & ->).
  simpl fst. simpl snd.
  assert (Hlogin :
            login b' (mkState (objects st ++ [new_user now b])%list
                              (set_prop (to_string (Body.email b))
                                        (List.length (objects st)) (users st)))
            = (mkState (objects st ++ [new_user now b])%list
                       (set_prop (to_string (Body.email b))
                                 (List.length (objects st)) (users st)),
               mkResponse 200 true (Some "Login successful")
                          (Some ("token-" ++ toString now))
                          (Some (Account (toString now)
                                         (Body.email b)
                                         (User.name (new_user now b)))))).
  { unfold login, get_prop. rewrite He, Hp, Hte, Htp.
    cbn [negb orb users objects].
    rewrite (own_set_prop_new _ _ _ (defined_false _ _ Hdef)).
    rewrite deref_alloc_new.
    cbn [User.password new_user User.id User.email].
    rewrite (strict_eq_refl _ Hprim). reflexivity. }
  rewrite Hlogin. simpl.
  repeat split; auto.
  apply token_user_id_mint, toString_has_no_dash.
Qed.

Lemma register_then_login_witness :
  status (snd (register 1000 ann init)) = 201%N /\
  status (snd (login (account (VStr "a@x.com") (VStr "secret1") VUndefined)
                     (fst (register 1000 ann init)))) = 200%N /\
  token (snd (login (account (VStr "a@x.com") (VStr "secret1") VUndefined)
                    (fst (register 1000 ann init)))) =
  token (snd (register 1000 ann init)).
Proof.
  pose proof (@register_then_login
                1000 ann (account (VStr "a@x.com") (VStr "secret1") VUndefined)
                init eq_refl eq_refl eq_refl eq_refl)
    as (_ & _ & H200 & _ & Htok & _).
  split; [reflexivity|]. split; assumption.
Defined.

(** ** Login *)




(** ** Profile update *)

(** C9.  A successful [update-profile] overwrites [mobileNumber],
    [alternativeNumber], [aadharNumber] and [avatar] of the caller's object
    exactly when the request carries the key (whatever the value, [null] and
    the empty string included), overwrites [name] exactly when the request
    carries a truthy name, and leaves every other object as it was. *)
Theorem update_profile_fields (authorization : option string) (b : Body.t)
        (st : state) :
  status (snd (update_profile authorization b st)) = 200%N ->
  exists userEmail l u u',
    find_user (objects st) (users st)
              (token_user_id (bearer authorization)) = Some (userEmail, l) /\
    deref (objects st) l = Some u /\
    deref (objects (fst (update_profile authorization b st))) l = Some u' /\
    User.mobileNumber u' =
    (if strict_eq (Body.mobileNumber b) VUndefined
     then User.mobileNumber u else Body.mobileNumber b) /\
    User.alternativeNumber u' =
    (if strict_eq (Body.alternativeNumber b) VUndefined
     then User.alternativeNumber u else Body.alternativeNumber b) /\
    User.aadharNumber u' =
    (if strict_eq (Body.aadharNumber b) VUndefined
     then User.aadharNumber u else Body.aadharNumber b) /\
    User.avatar u' =
    (if strict_eq (Body.avatar b) VUndefined
     then User.avatar u else Body.avatar b) /\
    User.name u' =
    (if truthy (Body.name b) then Body.name b else User.name u) /\
    User.id u' = User.id u /\
    User.password u' = User.password u /\
    (forall l', l' <> l ->
                deref (objects (fst (update_profile authorization b st))) l' =
                deref (objects st) l').
Proof.
  intros Hs.
  destruct (update_profile_updated _ _ _ Hs)
    as (userEmail & l & u & Hfind & Hu & _ & Hh & _).
  exists userEmail, l, u, (assigned b u).
  destruct (assigned_profile b u) as (Hm & Ha & Had & Hav).
  repeat split; auto.
  - rewrite Hh, Nat.eqb_refl. reflexivity.
  - apply assigned_name.
  - apply assigned_id.
  - apply assigned_password.
  - intros l' Hl'. rewrite Hh.
    destruct (Nat.eqb_spec l' l); [contradiction|reflexivity].
Qed.

Lemma update_profile_fields_witness :
  status (snd (update_profile
                 ann_header
                 (Body.mk VUndefined VUndefined (VStr "") (VStr "999") VNull
                          (VStr "") VUndefined)
                 two_users)) = 200%N /\
  exists userEmail l u u',
    find_user (objects two_users) (users two_users)
              (token_user_id (bearer ann_header)) = Some (userEmail, l) /\
    deref (objects two_users) l = Some u /\
    deref (objects
             (fst (update_profile
                     ann_header
                     (Body.mk VUndefined VUndefined (VStr "") (VStr "999")
                              VNull (VStr "") VUndefined)
                     two_users))) l = Some u' /\
    User.mobileNumber u' = VStr "999" /\
    User.alternativeNumber u' = VNull /\
    User.aadharNumber u' = VStr "" /\
    User.avatar u' = User.avatar u /\
    User.name u' = User.name u.
Proof.
  split; [reflexivity|].
  destruct (@update_profile_fields
              ann_header
              (Body.mk VUndefined VUndefined (VStr "") (VStr "999") VNull
                       (VStr "") VUndefined)
              two_users eq_refl)
    as (k & l & u & u' & H1 & H2 & H3 & H4 & H5 & H6 & H7 & H8 & _).
  exists k, l, u, u'. repeat split; assumption.
Defined.

(** X14.  When the new email is taken, the answer is the conflict, the
    property list is the same and every object is the same, except that the
    caller's object has already received the name of the request. *)
Lemma update_profile_email_taken (authorization : option string) (b : Body.t)
      (st : state) (userEmail : string) (l : loc) (u : User.t) :
  truthy (bearer authorization) = true ->
  find_user (objects st) (users st)
            (token_user_id (bearer authorization)) = Some (userEmail, l) ->
  deref (objects st) l = Some u ->
  truthy (Body.email b) = true ->
  Body.email b <> VStr userEmail ->
  defined (get_prop (users st) (to_string (Body.email b))) = true ->
  snd (update_profile authorization b st) =
  failure 400 "Email already in use" /\
  users (fst (update_profile authorization b st)) = users st /\
  forall l',
    deref (objects (fst (update_profile authorization b st))) l' =
    if Nat.eqb l' l
    then Some (if truthy (Body.name b)
               then User.set_name (Body.name b) u else u)
    else deref (objects st) l'.
Proof.
  intros Htok Hfind Hu He Hneq Hdef.
  assert (Hsame : strict_eq (Body.email b) (VStr userEmail) = false)
    by now apply strict_eq_neq.
  unfold update_profile. rewrite Htok, Hfind, He, Hsame, Hdef. simpl.
  repeat split. intros l'.
  destruct (truthy (Body.name b)).
  - rewrite deref_modify.
    destruct (Nat.eqb_spec l' l) as [->|]; [now rewrite Hu|reflexivity].
  - destruct (Nat.eqb_spec l' l) as [->|]; [assumption|reflexivity].
Qed.

(** No [update-profile] ever writes the [email] field of an object. *)
Lemma update_profile_keeps_email_field (authorization : option string)
      (b : Body.t) (st : state) (l : loc) :
  option_map User.email
             (deref (objects (fst (update_profile authorization b st))) l) =
  option_map User.email (deref (objects st) l).
Proof.
  pose proof (update_profile_outcome authorization b st) as Ho.
  destruct (update_profile authorization b st) as [st' r]. simpl in *.
  destruct Ho as [ | | userEmail l0 u h _ _ Hu _ _ _ _ Hh
                 | userEmail l0 u h ps _ _ Hu _ _ Hh ]; simpl;
    try reflexivity; rewrite Hh;
    (destruct (Nat.eqb_spec l l0) as [->|]; [|reflexivity]);
    rewrite Hu; simpl.
  - now destruct (truthy (Body.name b)).
  - now rewrite assigned_email.
Qed.

(** C1.  Ann asks for Bob's email and for a new name in one request: the
    answer is the conflict, and Ann's stored name is already the new one. *)
Theorem conflicting_update_renames_caller :
  snd (update_profile ann_header
                      (account (VStr "b@x.com") VUndefined (VStr "Zed"))
                      two_users)
  = failure 400 "Email already in use" /\
  error_kind (snd (update_profile
                     ann_header
                     (account (VStr "b@x.com") VUndefined (VStr "Zed"))
                     two_users)) = Some ConflictError /\
  option_map User.name (deref (objects two_users) 0) = Some (VStr "Ann") /\
  option_map User.name
             (deref (objects
                       (fst (update_profile
                               ann_header
                               (account (VStr "b@x.com") VUndefined
                                        (VStr "Zed"))
                               two_users))) 0) = Some (VStr "Zed").
Proof. vm_compute. repeat split. Qed.

(** C2.  Ann moves to a free email: the update succeeds, her object is now
    the property ["b@x.com"] of [users], and the profile read with her token
    still shows the email ["a@x.com"]. *)
Theorem rekeyed_profile_shows_old_email :
  status (snd (update_profile ann_header
                              (account (VStr "b@x.com") VUndefined VUndefined)
                              one_user)) = 200%N /\
  users (fst (update_profile ann_header
                             (account (VStr "b@x.com") VUndefined VUndefined)
                             one_user)) = [("b@x.com", 0)] /\
  option_map view_email
             (user (snd (me ann_header
                            (fst (update_profile
                                    ann_header
                                    (account (VStr "b@x.com") VUndefined
                                             VUndefined)
                                    one_user))))) = Some (VStr "a@x.com").
Proof. vm_compute. repeat split. Qed.

(** ** Re-keying and the token *)

Lemma sole_owner_spec (st : state) (i k k' : string) (l' : loc)
      (u' : User.t) :
  sole_owner st i k = true -> In (k', l') (users st) ->
  deref (objects st) l' = Some u' -> User.id u' = i -> k' = k.
Proof.
  unfold sole_owner. rewrite forallb_forall. intros H Hin Hu Hid.
  specialize (H _ Hin). simpl in H. rewrite Hu, Hid, String.eqb_refl in H.
  simpl in H. now apply String.eqb_eq.
Qed.

(** C3, as stated, fails when two registrations of the same millisecond
    share an id: after Ann's move the scan ends on Bob's object. *)
Lemma token_lost_after_rekey :
  ~ token_survives_rekey ann_header
      (account (VStr "c@x.com") VUndefined VUndefined) same_tick.
Proof.
  intros H.
  destruct (H "a@x.com" 0) as [k Hk]; try reflexivity; [discriminate|].
  vm_compute in Hk. discriminate.
Qed.

(** C3, amended.  A successful change of email keeps the caller's object,
    its id, its password and every field the request does not carry; the
    object is then the property named by the new email and no longer the one
    named by the old email.  When no other property holds an object with the
    caller's id, the scan for the token's id ends on that same object. *)
Theorem rekey_preserves_identity (authorization : option string)
        (b : Body.t) (st : state) (userEmail : string) (l : loc)
        (u : User.t) :
  find_user (objects st) (users st)
            (token_user_id (bearer authorization)) = Some (userEmail, l) ->
  deref (objects st) l = Some u ->
  status (snd (update_profile authorization b st)) = 200%N ->
  truthy (Body.email b) = true ->
  Body.email b <> VStr userEmail ->
  exists u',
    deref (objects (fst (update_profile authorization b st))) l = Some u' /\
    User.id u' = User.id u /\
    User.password u' = User.password u /\
    (truthy (Body.name b) = false -> User.name u' = User.name u) /\
    (Body.mobileNumber b = VUndefined ->
     User.mobileNumber u' = User.mobileNumber u) /\
    (Body.alternativeNumber b = VUndefined ->
     User.alternativeNumber u' = User.alternativeNumber u) /\
    (Body.aadharNumber b = VUndefined ->
     User.aadharNumber u' = User.aadharNumber u) /\
    (Body.avatar b = VUndefined -> User.avatar u' = User.avatar u) /\
    own (to_string (Body.email b))
        (users (fst (update_profile authorization b st))) = Some l /\
    own userEmail (users (fst (update_profile authorization b st))) = None /\
    (sole_owner st (User.id u) userEmail = true ->
     find_user (objects (fst (update_profile authorization b st)))
               (users (fst (update_profile authorization b st)))
               (token_user_id (bearer authorization)) =
     Some (to_string (Body.email b), l)).
Proof.
  intros Hfind Hu Hs He Hneq.
  destruct (update_profile_updated _ _ _ Hs)
    as (k0 & l0 & u0 & Hfind0 & Hu0 & Hps & Hh & _).
  rewrite Hfind in Hfind0. injection Hfind0 as <- <-.
  rewrite Hu in Hu0. injection Hu0 as <-.
  destruct Hps as [(_ & _ & Hown & Hps)|([Hc|Hc] & _)];
    [|congruence|contradiction].
  destruct (find_user_sound _ _ _ _ _ Hfind) as (Hin & u1 & Hu1 & Hv).
  rewrite Hu in Hu1. injection Hu1 as <-.
  assert (Hek : to_string (Body.email b) <> userEmail).
  { intros Heq. apply own_None in Hown. apply Hown. rewrite Heq.
    apply (in_map fst) in Hin. exact Hin. }
  exists (assigned b u).
  destruct (assigned_profile b u) as (Hm & Ha & Had & Hav).
  rewrite Hps.
  split; [rewrite Hh, Nat.eqb_refl; reflexivity|].
  split; [apply assigned_id|].
  split; [apply assigned_password|].
  split; [intros Hn; now rewrite assigned_name, Hn|].
  split; [intros Hb; now rewrite Hm, Hb|].
  split; [intros Hb; now rewrite Ha, Hb|].
  split; [intros Hb; now rewrite Had, Hb|].
  split; [intros Hb; now rewrite Hav, Hb|].
  split.
  { rewrite own_delete_prop.
    destruct (String.eqb_spec (to_string (Body.email b)) userEmail);
      [contradiction|]. now apply own_set_prop_new. }
  split; [now rewrite own_delete_prop, String.eqb_refl|].
  intros Hsole.
  rewrite (find_user_ext (objects st)).
  2:{ intros l'. rewrite Hh. destruct (Nat.eqb_spec l' l) as [->|];
        [|reflexivity]. rewrite Hu. simpl. now rewrite assigned_id. }
  destruct (find_user (objects st) (delete_prop _ _) _) as [[k' l']|] eqn:Hf.
  - destruct (find_user_sound _ _ _ _ _ Hf) as (Hin' & u' & Hu' & Hv').
    apply In_delete_prop in Hin' as [Hin' Hk']. simpl in Hk'.
    apply In_set_prop_new in Hin'; [|assumption].
    destruct Hin' as [Heq|Hin']; [now rewrite Heq|].
    exfalso. apply Hk'.
    apply (sole_owner_spec _ _ _ _ _ _ Hsole Hin' Hu'). congruence.
  - exfalso. rewrite find_user_None in Hf.
    apply (Hf (to_string (Body.email b)) l u); [|assumption|congruence].
    apply In_delete_prop. split; [|assumption].
    apply In_set_prop_new; [assumption|now left].
Qed.

Lemma rekey_preserves_identity_witness :
  status (snd (update_profile ann_header
                              (account (VStr "c@x.com") VUndefined VUndefined)
                              same_tick)) = 200%N /\
  own "c@x.com"
      (users (fst (update_profile
                     ann_header
                     (account (VStr "c@x.com") VUndefined VUndefined)
                     same_tick))) = Some 0 /\
  sole_owner two_users "1000" "a@x.com" = true /\
  find_user
    (objects (fst (update_profile
                     ann_header
                     (account (VStr "c@x.com") VUndefined VUndefined)
                     two_users)))
    (users (fst (update_profile
                   ann_header
                   (account (VStr "c@x.com") VUndefined VUndefined)
                   two_users)))
    (token_user_id (bearer ann_header)) = Some ("c@x.com", 0).
Proof.
  split; [reflexivity|]. split.
  - destruct (rekey_preserves_identity
                ann_header (account (VStr "c@x.com") VUndefined VUndefined)
                same_tick "a@x.com" 0 (new_user 1000 ann)
                eq_refl eq_refl eq_refl eq_refl)
      as (u' & _ & _ & _ & _ & _ & _ & _ & _ & Hnew & _);
      [discriminate|exact Hnew].
  - split; [reflexivity|].
    destruct (rekey_preserves_identity
                ann_header (account (VStr "c@x.com") VUndefined VUndefined)
                two_users "a@x.com" 0 (new_user 1000 ann)
                eq_refl eq_refl eq_refl eq_refl)
      as (u' & _ & _ & _ & _ & _ & _ & _ & _ & _ & _ & H);
      [discriminate|]. apply H. reflexivity.
Defined.

(** ** Fresh ids *)

(** C5, as stated, fails for two registrations of the same millisecond. *)
Lemma same_tick_ids_collide : ~ fresh_ids 1000 ann 1000 bob init.
Proof.
  intros H. destruct (H eq_refl eq_refl) as [Hneq _].
  apply Hneq. reflexivity.
Qed.

(** C5, amended.  The id of a registration is the decimal form of the clock
    reading, in the answer and in the stored object; two successful
    registrations, in whatever stores, get the same id exactly when their
    clock readings are the same. *)
Theorem registered_ids_follow_clock (now1 now2 : N) (b1 b2 : Body.t)
        (st1 st2 : state) :
  status (snd (register now1 b1 st1)) = 201%N ->
  status (snd (register now2 b2 st2)) = 201%N ->
  option_map view_id (user (snd (register now1 b1 st1))) =
  Some (toString now1) /\
  option_map User.id (deref (objects (fst (register now1 b1 st1)))
                            (List.length (objects st1))) =
  Some (toString now1) /\
  own (to_string (Body.email b1)) (users (fst (register now1 b1 st1))) =
  Some (List.length (objects st1)) /\
  (option_map view_id (user (snd (register now1 b1 st1))) =
   option_map view_id (user (snd (register now2 b2 st2))) <-> now1 = now2).
Proof.
  intros H1 H2.
  destruct (register_created _ _ _ H1) as (_ & _ & _ & Hdef1 & ->).
  destruct (register_created _ _ _ H2) as (_ & _ & _ & _ & ->).
  simpl. rewrite deref_alloc_new. simpl.
  repeat split.
  - apply own_set_prop_new. now apply defined_false.
  - intros H. apply toString_inj. congruence.
  - now intros ->.
Qed.

Lemma registered_ids_follow_clock_witness :
  status (snd (register 1000 ann init)) = 201%N /\
  status (snd (register 2000 bob one_user)) = 201%N /\
  (option_map view_id (user (snd (register 1000 ann init))) =
   option_map view_id (user (snd (register 2000 bob one_user)))
   <-> 1000%N = 2000%N).
Proof.
  split; [reflexivity|]. split; [reflexivity|].
  apply (registered_ids_follow_clock 1000 2000 ann bob init one_user);
    reflexivity.
Defined.

(** ** Token resolution *)

(** C8, as stated, fails: a token without the prefix is answered 404. *)
Lemma malformed_token_not_found :
  ~ malformed_is_unauthorized (Some "Bearer garbage") init.
Proof.
  intros H. assert (Hs : status (snd (me (Some "Bearer garbage") init))
                         = 401%N).
  { apply H. intros t [= <-]. reflexivity. }
  vm_compute in Hs. discriminate.
Qed.

(** C8, amended.  Both token-bearing handlers answer 401 exactly when no
    token can be read from the header, and 404 exactly when a token can be
    read and no stored object has for id the second dash-separated part of
    the token; for a token ["token-" ++ i] with a dash-free [i] that part
    is [i]. *)
Theorem token_outcomes (authorization : option string) (b : Body.t)
        (st : state) :
  let tok := bearer authorization in
  let unknown (v : value) :=
    forall k l u, In (k, l) (users st) -> deref (objects st) l = Some u ->
                  VStr (User.id u) <> v in
  (status (snd (me authorization st)) = 401%N <-> truthy tok = false) /\
  (status (snd (me authorization st)) = 404%N <->
   truthy tok = true /\ unknown (token_user_id tok)) /\
  (status (snd (update_profile authorization b st)) = 401%N <->
   truthy tok = false) /\
  (status (snd (update_profile authorization b st)) = 404%N <->
   truthy tok = true /\ unknown (token_user_id tok)) /\
  (forall i, tok = VStr ("token-" ++ i) -> occurs "-" i = false ->
             token_user_id tok = VStr i).
Proof.
  intros tok unknown.
  assert (Hme :
            (status (snd (me authorization st)) = 401%N <-> truthy tok = false)
            /\ (status (snd (me authorization st)) = 404%N <->
                truthy tok = true /\ unknown (token_user_id tok))).
  { unfold me. fold tok. subst unknown. simpl.
    destruct (truthy tok); simpl.
    - destruct (find_user _ _ _) as [[k l]|] eqn:Hf; simpl.
      + destruct (find_user_sound _ _ _ _ _ Hf) as (Hin & u & Hu & Hv).
        rewrite Hu. simpl. split; split; try discriminate.
        intros [_ H]. exfalso. apply (H k l u Hin Hu). congruence.
      + rewrite find_user_None in Hf. split; split; try discriminate; auto.
    - split; split; auto; try discriminate. intros [H _]. discriminate. }
  destruct Hme as [Hme1 Hme2].
  split; [exact Hme1|]. split; [exact Hme2|].
  assert (Hup :
            (status (snd (update_profile authorization b st)) = 401%N <->
             truthy tok = false) /\
            (status (snd (update_profile authorization b st)) = 404%N <->
             truthy tok = true /\ unknown (token_user_id tok))).
  { pose proof (update_profile_outcome authorization b st) as Ho.
    destruct (update_profile authorization b st) as [st' r].
    simpl in Ho. subst unknown. fold tok in Ho. simpl.
    destruct Ho as [ Htok | Htok Hf | k l u h Htok Hf Hu _ _ _ _ _
                   | k l u h ps Htok Hf Hu _ _ _ ]; simpl;
      fold tok in Htok; try fold tok in Hf.
    - rewrite Htok. split; split; auto; try discriminate.
      intros [H _]. discriminate.
    - rewrite Htok. rewrite find_user_None in Hf.
      split; split; auto; discriminate.
    - rewrite Htok. split; split; try discriminate.
      intros [_ H]. exfalso.
      destruct (find_user_sound _ _ _ _ _ Hf) as (Hin & u1 & Hu1 & Hv).
      apply (H k l u1 Hin Hu1). congruence.
    - rewrite Htok. split; split; try discriminate.
      intros [_ H]. exfalso.
      destruct (find_user_sound _ _ _ _ _ Hf) as (Hin & u1 & Hu1 & Hv).
      apply (H k l u1 Hin Hu1). congruence. }
  destruct Hup as [Hup1 Hup2].
  split; [exact Hup1|]. split; [exact Hup2|].
  intros i -> Hi. now apply token_user_id_mint.
Qed.

Lemma token_outcomes_witness :
  status (snd (me (Some "Bearer garbage") two_users)) = 404%N /\
  status (snd (me (Some "Bearer") two_users)) = 401%N /\
  token_user_id (bearer (Some "Bearer token-3000")) = VStr "3000".
Proof.
  split; [|split].
  - apply (token_outcomes (Some "Bearer garbage") Body.empty two_users).
    split; [reflexivity|].
    intros k l u [H|[H|[]]] Hu; injection H as <- <-;
      vm_compute in Hu; injection Hu as <-; discriminate.
  - apply (token_outcomes (Some "Bearer") Body.empty two_users).
    reflexivity.
  - apply (token_outcomes (Some "Bearer token-3000") Body.empty two_users);
      reflexivity.
Defined.

(** ** The stored ids *)

Lemma stored_ids_perm (h : heap) (ps ps' : props) :
  Permutation ps ps' ->
  Permutation (stored_ids (mkState h ps)) (stored_ids (mkState h ps')).
Proof. intros H. unfold stored_ids. simpl. now apply Permutation_flat_map. Qed.

(** The list of ids only reads the [id] of the objects held by properties. *)
Lemma stored_ids_ext (h h' : heap) (ps : props) :
  (forall l, In l (locs ps) ->
             option_map User.id (deref h' l) = option_map User.id (deref h l)) ->
  stored_ids (mkState h' ps) = stored_ids (mkState h ps).
Proof.
  unfold stored_ids. simpl.
  induction ps as [|[k l] r IH]; simpl; intros H; [reflexivity|].
  rewrite IH by (intros; apply H; now right).
  specialize (H l (or_introl eq_refl)).
  destruct (deref h' l), (deref h l); simpl in H; congruence.
Qed.

Lemma keys_with_id_count (st : state) (i : string) :
  List.length (keys_with_id st i) = count_occ string_dec (stored_ids st) i.
Proof.
  unfold keys_with_id, stored_ids.
  induction (users st) as [|[k l] r IH]; simpl; [reflexivity|].
  rewrite length_app, count_occ_app, IH. f_equal.
  destruct (deref (objects st) l) as [u|]; simpl; [|reflexivity].
  destruct (String.eqb_spec (User.id u) i), (string_dec (User.id u) i);
    simpl; congruence.
Qed.

Lemma keys_of_loc_absent (ps : props) (l : loc) :
  ~ In l (locs ps) -> keys_of_loc ps l = [].
Proof.
  induction ps as [|[k0 l0] r IH]; simpl; [reflexivity|]. intros H.
  destruct (Nat.eqb_spec l0 l); [tauto|]. simpl. apply IH. tauto.
Qed.

Lemma keys_of_loc_unique (ps : props) (k : string) (l : loc) :
  NoDup (locs ps) -> In (k, l) ps -> keys_of_loc ps l = [k].
Proof.
  induction ps as [|[k0 l0] r IH]; simpl; [tauto|].
  intros Hnd Hin. inversion Hnd as [|? ? Hnot Hnd']; subst.
  destruct Hin as [Heq|Hin].
  - injection Heq as -> ->. rewrite Nat.eqb_refl. simpl.
    now rewrite keys_of_loc_absent.
  - destruct (Nat.eqb_spec l0 l) as [->|]; [|simpl; auto].
    exfalso. apply Hnot. apply (in_map snd) in Hin. exact Hin.
Qed.

Lemma register_stored_ids (now : N) (b : Body.t) (st : state) :
  wf st -> status (snd (register now b st)) = 201%N ->
  Permutation (stored_ids (fst (register now b st)))
              (toString now :: stored_ids st).
Proof.
  intros [_ _ Hc] Hs.
  destruct (register_created _ _ _ Hs) as (_ & _ & _ & Hdef & ->). simpl.
  apply defined_false in Hdef. unfold set_prop. rewrite Hdef.
  rewrite (stored_ids_perm _ _ _ (insert_prop_perm _ _ _)).
  unfold stored_ids at 1. simpl. rewrite deref_alloc_new. simpl.
  constructor.
  change (flat_map _ (users st))
    with (stored_ids (mkState (objects st ++ [new_user now b])%list
                              (users st))).
  rewrite (stored_ids_ext (objects st)); [destruct st; reflexivity|].
  intros l Hl. rewrite Forall_forall in Hc. apply Hc in Hl.
  unfold deref. now rewrite nth_error_app1.
Qed.

Lemma update_profile_stored_ids (authorization : option string) (b : Body.t)
      (st : state) :
  wf st ->
  Permutation (stored_ids (fst (update_profile authorization b st)))
              (stored_ids st).
Proof.
  intros Hwf.
  pose proof (update_profile_outcome authorization b st) as Ho.
  destruct (update_profile authorization b st) as [st' r]. simpl in *.
  destruct Ho as [ | | userEmail l u h _ _ Hu _ _ _ _ Hh
                 | userEmail l u h ps _ Hfind Hu Hps _ Hh ];
    try reflexivity.
  - rewrite (stored_ids_ext (objects st)); [destruct st; reflexivity|].
    intros l' _. rewrite Hh. destruct (Nat.eqb_spec l' l) as [->|];
      [|reflexivity].
    rewrite Hu. now destruct (truthy (Body.name b)).
  - assert (Hids : forall ps0,
               stored_ids (mkState h ps0) = stored_ids (mkState (objects st) ps0)).
    { intros ps0. apply stored_ids_ext. intros l' _. rewrite Hh.
      destruct (Nat.eqb_spec l' l) as [->|]; [|reflexivity].
      rewrite Hu. simpl. now rewrite assigned_id. }
    rewrite Hids.
    destruct (find_user_sound _ _ _ _ _ Hfind) as [Hin _].
    destruct Hps as [(_ & _ & Hown & ->)|(_ & ->)];
      [|destruct st; reflexivity].
    destruct (rekey_perm userEmail (to_string (Body.email b)) l (users st))
      as (rest & Hp1 & Hp2); auto using wf_keys.
    { intros Heq. apply own_None in Hown. apply Hown. rewrite Heq.
      apply (in_map fst) in Hin. exact Hin. }
    rewrite (stored_ids_perm _ _ _ Hp2).
    replace (stored_ids st) with (stored_ids (mkState (objects st) (users st)))
      by (destruct st; reflexivity).
    rewrite (stored_ids_perm _ _ _ Hp1). reflexivity.
Qed.

Lemma handle_unchanged (q : request) (st : state) :
  match q with
  | Register _ _ | UpdateProfile _ _ => True
  | _ => handle q st = (st, snd (handle q st))
  end.
Proof.
  destruct q as [now b|b|a|a b|b|]; simpl; auto.
  - unfold login. destruct (_ || _); [reflexivity|].
    destruct (get_prop _ _); [destruct (deref _ _)| |];
      repeat match goal with |- context [if ?c then _ else _] =>
                               destruct c end; reflexivity.
  - unfold me. destruct (negb _); [reflexivity|].
    destruct (find_user _ _ _) as [[k l]|]; [|reflexivity].
    destruct (deref _ _); reflexivity.
  - unfold forgot_password. destruct (negb _); [reflexivity|].
    destruct (negb _); reflexivity.
Qed.

Lemma handle_stored_ids (q : request) (st : state) (i : string) :
  wf st -> In i (stored_ids st) -> In i (stored_ids (fst (handle q st))).
Proof.
  intros Hwf Hi.
  pose proof (handle_unchanged q st) as Hq.
  destruct q as [now b|b|a|a b|b|]; try (rewrite Hq; exact Hi).
  - simpl.
    destruct (N.eq_dec (status (snd (register now b st))) 201) as [Hs|Hs];
      [|now rewrite register_rejected].
    apply (Permutation_in _ (Permutation_sym
                               (register_stored_ids now b st Hwf Hs))).
    now right.
  - simpl.
    apply (Permutation_in _ (Permutation_sym
                               (update_profile_stored_ids a b st Hwf))).
    exact Hi.
Qed.

Lemma run_stored_ids (qs : list request) (st : state) (i : string) :
  wf st -> In i (stored_ids st) -> In i (stored_ids (run qs st)).
Proof.
  revert st. induction qs as [|q r IH]; simpl; intros st Hwf Hi; [exact Hi|].
  apply IH; [now apply handle_wf|now apply handle_stored_ids].
Qed.

(** C10, as stated, fails in a reachable store: after two registrations of
    the same millisecond the caller's id has two keys. *)
Lemma shared_id_has_two_keys :
  reachable same_tick /\
  ~ caller_id_has_one_key ann_header
      (account (VStr "c@x.com") VUndefined VUndefined) same_tick.
Proof.
  split; [now exists [Register 1000 ann; Register 1000 bob]|].
  intros H.
  destruct (H "a@x.com" 0 (new_user 1000 ann) eq_refl eq_refl eq_refl)
    as [H1 _].
  vm_compute in H1. discriminate.
Qed.

(** C10, amended.  From a reachable store, no sequence of requests loses a
    stored id.  A successful registration allocates one object and adds one
    property, hence one id; a successful profile update keeps the caller's
    object under exactly one property, before and after, and keeps for every
    id the number of properties holding it; login, profile read, forgotten
    password and logout return the store they were given. *)
Theorem store_never_shrinks (st : state) (q : request) :
  reachable st ->
  (forall qs i, In i (stored_ids st) -> In i (stored_ids (run qs st))) /\
  match q with
  | Register now b =>
      status (snd (register now b st)) = 201%N ->
      List.length (objects (fst (register now b st))) =
      S (List.length (objects st)) /\
      Permutation (users (fst (register now b st)))
                  ((to_string (Body.email b), List.length (objects st))
                     :: users st) /\
      Permutation (stored_ids (fst (register now b st)))
                  (toString now :: stored_ids st)
  | UpdateProfile a b =>
      forall userEmail l,
        find_user (objects st) (users st) (token_user_id (bearer a)) =
        Some (userEmail, l) ->
        status (snd (update_profile a b st)) = 200%N ->
        keys_of_loc (users st) l = [userEmail] /\
        (exists k, keys_of_loc (users (fst (update_profile a b st))) l = [k])
        /\
        Permutation (stored_ids (fst (update_profile a b st))) (stored_ids st)
        /\
        (forall i, List.length (keys_with_id (fst (update_profile a b st)) i)
                   = List.length (keys_with_id st i))
  | _ => handle q st = (st, snd (handle q st))
  end.
Proof.
  intros Hreach. pose proof (reachable_wf st Hreach) as Hwf.
  split; [intros qs i; now apply run_stored_ids|].
  pose proof (handle_unchanged q st) as Hq.
  destruct q as [now b|b|a|a b|b|]; try exact Hq.
  - intros Hs. split; [|split].
    + destruct (register_created _ _ _ Hs) as (_ & _ & _ & _ & ->). simpl.
      rewrite length_app. simpl. lia.
    + destruct (register_created _ _ _ Hs) as (_ & _ & _ & Hdef & ->). simpl.
      apply defined_false in Hdef. unfold set_prop. rewrite Hdef.
      apply insert_prop_perm.
    + now apply register_stored_ids.
  - intros userEmail l Hfind Hs.
    pose proof (update_profile_wf a b st Hwf) as Hwf'.
    pose proof (update_profile_stored_ids a b st Hwf) as Hids.
    destruct (find_user_sound _ _ _ _ _ Hfind) as [Hin _].
    split; [apply keys_of_loc_unique; [apply (wf_locs _ Hwf)|exact Hin]|].
    split; [|split; [exact Hids|]].
    + destruct (update_profile_updated _ _ _ Hs)
        as (k0 & l0 & u0 & Hfind0 & Hu0 & Hps & _).
      rewrite Hfind in Hfind0. injection Hfind0 as <- <-.
      destruct Hps as [(_ & _ & Hown & Hps)|(_ & Hps)].
      * exists (to_string (Body.email b)).
        apply keys_of_loc_unique; [apply (wf_locs _ Hwf')|].
        rewrite Hps. apply In_delete_prop. split.
        -- apply In_set_prop_new; [assumption|now left].
        -- simpl. intros Heq. apply own_None in Hown. apply Hown.
           rewrite Heq. apply (in_map fst) in Hin. exact Hin.
      * exists userEmail. rewrite Hps.
        apply keys_of_loc_unique; [apply (wf_locs _ Hwf)|exact Hin].
    + intros i. rewrite !keys_with_id_count.
      now apply Permutation_count_occ.
Qed.

Lemma store_never_shrinks_witness :
  reachable two_users /\
  (forall qs i, In i (stored_ids two_users) ->
                In i (stored_ids (run qs two_users))) /\
  keys_of_loc (users two_users) 0 = ["a@x.com"] /\
  (exists k,
      keys_of_loc
        (users (fst (update_profile
                       ann_header
                       (account (VStr "c@x.com") VUndefined VUndefined)
                       two_users))) 0 = [k]).
Proof.
  assert (Hr : reachable two_users)
    by now exists [Register 1000 ann; Register 2000 bob].
  split; [exact Hr|].
  destruct (store_never_shrinks
              two_users
              (UpdateProfile ann_header
                             (account (VStr "c@x.com") VUndefined VUndefined))
              Hr) as [Hgrow Hup].
  split; [exact Hgrow|].
  destruct (Hup "a@x.com" 0 eq_refl eq_refl) as (H1 & H2 & _).
  split; assumption.
Defined.

(** ** The [catch] blocks *)

Lemma wf_deref (st : state) (k : string) (l : loc) :
  wf st -> own k (users st) = Some l -> exists u, deref (objects st) l = Some u.
Proof.
  intros [_ _ Hc] Hown. apply own_In in Hown.
  apply (in_map snd) in Hown. simpl in Hown.
  rewrite Forall_forall in Hc. apply Hc in Hown.
  unfold deref. destruct (nth_error (objects st) l) as [u|] eqn:Hu;
    [now exists u|].
  apply nth_error_None in Hu. lia.
Qed.

(** From a well-formed store the only answer 500 is that of [register] to a
    body whose name is falsy and whose email has no [split] method. *)
Lemma no_internal_error (q : request) (st : state) :
  wf st -> status (snd (handle q st)) = 500%N ->
  exists now b, q = Register now b /\
                truthy (Body.name b) = false /\
                local_part (Body.email b) = None.
Proof.
  intros Hwf. destruct q as [now b|b|a|a b|b|]; simpl.
  - intros Hs. exists now, b. split; [reflexivity|].
    revert Hs. unfold register, name_or_local_part.
    destruct (_ || _); [discriminate|].
    destruct (length_below _ _); [discriminate|].
    destruct (defined _); [discriminate|].
    destruct (truthy (Body.name b)); [discriminate|].
    destruct (local_part (Body.email b)); [discriminate|]. now split.
  - unfold login.
    destruct (truthy (Body.email b)); simpl; [|discriminate].
    destruct (truthy (Body.password b)) eqn:Hp; simpl; [|discriminate].
    unfold get_prop.
    destruct (own _ _) as [l|] eqn:Hown.
    + destruct (wf_deref _ _ _ Hwf Hown) as [u ->].
      destruct (negb _); simpl; discriminate.
    + destruct (existsb _ object_prototype); simpl; [|discriminate].
      rewrite (truthy_defined _ Hp). simpl. discriminate.
  - unfold me. destruct (negb _); simpl; [discriminate|].
    destruct (find_user _ _ _) as [[k l]|] eqn:Hf; simpl; [|discriminate].
    destruct (find_user_sound _ _ _ _ _ Hf) as (_ & u & -> & _).
    simpl. discriminate.
  - pose proof (update_profile_outcome a b st) as Ho.
    destruct (update_profile a b st) as [st' r]. simpl in *.
    destruct Ho; simpl; discriminate.
  - unfold forgot_password.
    repeat match goal with |- context [if ?c then _ else _] =>
                             destruct c end; simpl; discriminate.
  - discriminate.
Qed.

(** * Further properties of the handlers *)

(** ** Splitting and the two parsers *)

Lemma split_at_first (sep : ascii) (a b : string) :
  occurs sep a = false ->
  split sep (a ++ String sep b) = a :: split sep b.
Proof.
  induction a as [|c r IH]; simpl; intros H.
  - now rewrite Ascii.eqb_refl.
  - apply orb_false_iff in H as [Hc Hr]. rewrite Hc, (IH Hr). reflexivity.
Qed.

Lemma split_nonempty (sep : ascii) (s : string) : split sep s <> [].
Proof.
  destruct s as [|c r]; simpl; [discriminate|].
  destruct (Ascii.eqb c sep); [discriminate|].
  destruct (split sep r); discriminate.
Qed.

Lemma index_split_head (sep : ascii) (a b : string) :
  occurs sep a = false ->
  index (split sep (a ++ String sep b)) 1 = index (split sep b) 0.
Proof. intros H. now rewrite split_at_first. Qed.

Lemma index_split_first (sep : ascii) (a b : string) :
  occurs sep a = false -> index (split sep (a ++ String sep b)) 0 = VStr a.
Proof. intros H. now rewrite split_at_first. Qed.

Lemma index_split_whole (sep : ascii) (s : string) :
  occurs sep s = false -> index (split sep s) 0 = VStr s.
Proof. intros H. now rewrite split_without_separator. Qed.

Lemma occurs_append (c : ascii) (a b : string) :
  occurs c (a ++ b) = occurs c a || occurs c b.
Proof.
  induction a as [|c' r IH]; simpl; [reflexivity|].
  now rewrite IH, orb_assoc.
Qed.

(** The handlers read the header only through the token and its id part. *)
Lemma me_by_token (a1 a2 : option string) (st : state) :
  truthy (bearer a1) = truthy (bearer a2) ->
  token_user_id (bearer a1) = token_user_id (bearer a2) ->
  me a1 st = me a2 st.
Proof. intros Ht Hi. unfold me. now rewrite Ht, Hi. Qed.

Lemma update_profile_by_token (a1 a2 : option string) (b : Body.t)
      (st : state) :
  truthy (bearer a1) = truthy (bearer a2) ->
  token_user_id (bearer a1) = token_user_id (bearer a2) ->
  update_profile a1 b st = update_profile a2 b st.
Proof. intros Ht Hi. unfold update_profile. now rewrite Ht, Hi. Qed.

(** X1.  Neither the scheme word of the header nor the prefix of the token
    is ever looked at: a header made of any word, a space, any dash-free
    prefix, a dash and an id is served exactly as ["Bearer token-" ++ id],
    by the profile read and by the profile update. *)
Theorem scheme_and_prefix_ignored (scheme pre i : string) (b : Body.t)
        (st : state) :
  occurs " " scheme = false ->
  occurs " " pre = false -> occurs "-" pre = false ->
  occurs " " i = false -> occurs "-" i = false ->
  me (Some (scheme ++ " " ++ pre ++ "-" ++ i)) st =
  me (Some ("Bearer token-" ++ i)) st /\
  update_profile (Some (scheme ++ " " ++ pre ++ "-" ++ i)) b st =
  update_profile (Some ("Bearer token-" ++ i)) b st.
Proof.
  intros Hs Hp1 Hp2 Hi1 Hi2.
  assert (Hb1 : bearer (Some (scheme ++ " " ++ pre ++ "-" ++ i))
                = VStr (pre ++ "-" ++ i)).
  { unfold bearer.
    change (scheme ++ " " ++ pre ++ "-" ++ i)
      with (scheme ++ String " " (pre ++ "-" ++ i)).
    rewrite index_split_head by assumption.
    apply index_split_whole.
    rewrite occurs_append, Hp1. simpl. exact Hi1. }
  assert (Hb2 : bearer (Some ("Bearer token-" ++ i)) = VStr ("token-" ++ i)).
  { apply (bearer_mint ("token-" ++ i)). simpl. exact Hi1. }
  assert (Hid : token_user_id (VStr (pre ++ "-" ++ i)) = VStr i).
  { unfold token_user_id. simpl to_string.
    change (pre ++ "-" ++ i) with (pre ++ String "-" i).
    rewrite index_split_head by assumption.
    now apply index_split_whole. }
  assert (Htr : truthy (VStr (pre ++ "-" ++ i)) = true).
  { destruct pre; reflexivity. }
  split.
  - apply me_by_token; rewrite Hb1, Hb2.
    + now rewrite Htr.
    + rewrite Hid. symmetry. now apply token_user_id_mint.
  - apply update_profile_by_token; rewrite Hb1, Hb2.
    + now rewrite Htr.
    + rewrite Hid. symmetry. now apply token_user_id_mint.
Qed.

Lemma scheme_and_prefix_ignored_witness :
  me (Some "Basic x-1000") two_users = me (Some "Bearer token-1000") two_users
  /\ status (snd (me (Some "Basic x-1000") two_users)) = 200%N.
Proof.
  split; [|reflexivity].
  apply (scheme_and_prefix_ignored "Basic" "x" "1000" Body.empty two_users);
    reflexivity.
Defined.

(** ** Registration, login and forgotten password, case by case *)

Lemma get_prop_defined (ps : props) (k : string) :
  defined (get_prop ps k) = false <-> own k ps = None /\ inherited k = false.
Proof.
  unfold get_prop, inherited.
  destruct (own k ps).
  - simpl. split; [discriminate|intros [H _]; discriminate].
  - destruct (existsb (String.eqb k) object_prototype); cbn [defined];
      split; auto; try discriminate. intros [_ H]. discriminate.
Qed.





(** X3.  The name of a registered user, in the answer and in the stored
    object, is the name of the request, as it is, when that is truthy;
    otherwise the email is a string and the name is the part of it before
    its first ["@"], the whole email when it has no ["@"]. *)
Theorem register_default_name (now : N) (b : Body.t) (st : state) :
  status (snd (register now b st)) = 201%N ->
  exists u,
    deref (objects (fst (register now b st))) (List.length (objects st)) =
    Some u /\
    option_map view_name (user (snd (register now b st))) =
    Some (User.name u) /\
    (truthy (Body.name b) = true -> User.name u = Body.name b) /\
    (truthy (Body.name b) = false ->
     exists e,
       Body.email b = VStr e /\
       (forall before rest,
           e = before ++ "@" ++ rest ->
           occurs "@" before = false -> User.name u = VStr before) /\
       (occurs "@" e = false -> User.name u = VStr e)).
Proof.
  intros Hs.
  pose proof (register_created_name _ _ _ Hs) as Hn.
  destruct (register_created _ _ _ Hs) as (_ & _ & _ & _ & ->). simpl.
  exists (new_user now b). rewrite deref_alloc_new.
  split; [reflexivity|]. split; [reflexivity|].
  unfold name_or_local_part in Hn.
  split.
  - intros Ht. rewrite Ht in Hn. congruence.
  - intros Ht. rewrite Ht in Hn. unfold local_part in Hn.
    destruct (Body.email b) as [| | | |e| |]; try discriminate.
    assert (Hname : User.name (new_user now b) = index (split "@" e) 0)
      by congruence.
    exists e. split; [reflexivity|].
    rewrite Hname. split.
    + intros before rest -> Hb.
      change (before ++ "@" ++ rest) with (before ++ String "@" rest).
      now rewrite index_split_first.
    + intros Hno. now rewrite index_split_whole.
Qed.

Lemma register_default_name_witness :
  status (snd (register 3000 (account (VStr "carol@x.com") (VStr "secret1")
                                      (VStr "")) two_users)) = 201%N /\
  option_map view_name
             (user (snd (register 3000 (account (VStr "carol@x.com")
                                                (VStr "secret1") (VStr ""))
                                  two_users))) = Some (VStr "carol").
Proof.
  split; [reflexivity|].
  destruct (register_default_name
              3000 (account (VStr "carol@x.com") (VStr "secret1") (VStr ""))
              two_users eq_refl) as (u & _ & Hv & _ & Hlocal).
  rewrite Hv. f_equal.
  destruct (Hlocal eq_refl) as (e & He & Hat & _).
  injection He as <-.
  apply (Hat "carol" "x.com"); reflexivity.
Defined.

Lemma login_accepts (b : Body.t) (st : state) (l : loc) (u : User.t) :
  truthy (Body.email b) = true -> truthy (Body.password b) = true ->
  own (to_string (Body.email b)) (users st) = Some l ->
  deref (objects st) l = Some u ->
  strict_eq (User.password u) (Body.password b) = true ->
  login b st =
  (st, mkResponse 200 true (Some "Login successful")
                  (Some ("token-" ++ User.id u))
                  (Some (Account (User.id u) (User.email u) (User.name u)))).
Proof.
  intros He Hp Hown Hu Hpw. unfold login, get_prop.
  rewrite He, Hp, Hown, Hu. cbn [negb orb]. now rewrite Hpw.
Qed.

Lemma login_accepted (b : Body.t) (st : state) :
  status (snd (login b st)) = 200%N ->
  truthy (Body.email b) = true /\ truthy (Body.password b) = true /\
  exists l u,
    own (to_string (Body.email b)) (users st) = Some l /\
    deref (objects st) l = Some u /\
    strict_eq (User.password u) (Body.password b) = true.
Proof.
  unfold login, get_prop.
  destruct (truthy (Body.email b)); [|simpl; discriminate].
  destruct (truthy (Body.password b)) eqn:Hp; [|simpl; discriminate].
  cbn [negb orb].
  destruct (own _ _) as [l|] eqn:Hown.
  - destruct (deref (objects st) l) as [u|] eqn:Hu; simpl; [|discriminate].
    destruct (strict_eq (User.password u) (Body.password b)) eqn:Heq;
      simpl; [|discriminate].
    intros _.
    split; [reflexivity|]. split; [reflexivity|]. exists l, u.
    repeat split; congruence.
  - destruct (existsb (String.eqb (to_string (Body.email b)))
                     object_prototype); [|simpl; discriminate].
    rewrite (truthy_defined _ Hp). simpl. discriminate.
Qed.

(** X4.  [login] answers 200 exactly when the email and the password are
    truthy, the property key of the email is a property of [users], and the
    password of its object is [===] to the password of the request (the same
    string, number or boolean: an array or an object sent as password is
    never [===] to a stored one); the answer then carries the token
    ["token-" ++ id] and the id, email field and name of the object, and
    the store is the one given, whatever the answer. *)
Theorem login_succeeds_iff (b : Body.t) (st : state) :
  fst (login b st) = st /\
  (status (snd (login b st)) = 200%N <->
   truthy (Body.email b) = true /\ truthy (Body.password b) = true /\
   exists l u,
     own (to_string (Body.email b)) (users st) = Some l /\
     deref (objects st) l = Some u /\
     strict_eq (User.password u) (Body.password b) = true) /\
  (forall l u,
      status (snd (login b st)) = 200%N ->
      own (to_string (Body.email b)) (users st) = Some l ->
      deref (objects st) l = Some u ->
      token (snd (login b st)) = Some ("token-" ++ User.id u) /\
      user (snd (login b st)) =
      Some (Account (User.id u) (User.email u) (User.name u))) /\
  (primitive (Body.password b) = false ->
   status (snd (login b st)) <> 200%N).
Proof.
  split; [|split; [|split]].
  - pose proof (handle_unchanged (Login b) st) as H. simpl in H.
    now rewrite H.
  - split; [apply login_accepted|].
    intros (He & Hp & l & u & Hown & Hu & Hpw).
    now rewrite (login_accepts b st l u He Hp Hown Hu Hpw).
  - intros l u Hs Hown Hu.
    destruct (login_accepted b st Hs) as (He & Hp & l' & u' & Hown' & Hu' & Hpw).
    rewrite Hown in Hown'. injection Hown' as <-.
    rewrite Hu in Hu'. injection Hu' as <-.
    rewrite (login_accepts b st l u He Hp Hown Hu Hpw). split; reflexivity.
  - intros Hpw Hs.
    destruct (login_accepted b st Hs) as (_ & _ & l & u & _ & _ & Heq).
    destruct (Body.password b); try discriminate;
      destruct (User.password u); discriminate.
Qed.

Lemma login_succeeds_iff_witness :
  status (snd (login ann two_users)) = 200%N /\
  token (snd (login ann two_users)) = Some "token-1000".
Proof.
  destruct (login_succeeds_iff ann two_users) as (_ & [_ Hok] & Htok & _).
  assert (Hs : status (snd (login ann two_users)) = 200%N).
  { apply Hok. split; [reflexivity|]. split; [reflexivity|].
    exists 0, (new_user 1000 ann). repeat split. }
  split; [exact Hs|].
  apply (Htok 0 (new_user 1000 ann) Hs); reflexivity.
Defined.



(** ** What the profile views hold *)

Lemma me_answered (authorization : option string) (st : state) :
  status (snd (me authorization st)) = 200%N ->
  truthy (bearer authorization) = true /\
  exists k l u,
    find_user (objects st) (users st)
              (token_user_id (bearer authorization)) = Some (k, l) /\
    deref (objects st) l = Some u /\
    me authorization st =
    (st, mkResponse 200 true None None (Some (profile_view u))).
Proof.
  unfold me.
  destruct (truthy (bearer authorization)); [|simpl; discriminate].
  cbn [negb].
  destruct (find_user _ _ _) as [[k l]|] eqn:Hf; [|simpl; discriminate].
  destruct (find_user_sound _ _ _ _ _ Hf) as (_ & u & Hu & _).
  rewrite Hu. intros _. split; [reflexivity|].
  exists k, l, u. auto.
Qed.

Lemma me_answers (authorization : option string) (st : state) (k : string)
      (l : loc) (u : User.t) :
  truthy (bearer authorization) = true ->
  find_user (objects st) (users st)
            (token_user_id (bearer authorization)) = Some (k, l) ->
  deref (objects st) l = Some u ->
  me authorization st =
  (st, mkResponse 200 true None None (Some (profile_view u))).
Proof. intros Ht Hf Hu. unfold me. now rewrite Ht, Hf, Hu. Qed.

Lemma or_else_truthy (v d : value) :
  truthy d = true -> truthy (or_else v d) = true.
Proof. unfold or_else. intros Hd. now destruct (truthy v) eqn:Hv. Qed.

Lemma or_else_shown (v : value) :
  or_else v (VStr "") <> VUndefined /\ or_else v (VStr "") <> VNull.
Proof.
  unfold or_else.
  destruct v as [| |c|n|s| |]; simpl;
    try destruct c; try destruct (n =? 0)%Z; try destruct (s =? "");
    simpl; split; discriminate.
Qed.

(** X6.  The profile returned by the profile read or by the profile update
    is read off the object the scan for the token's id ends on, as that
    object is once the handler has run: [id], [email] and [name] are its
    fields as they are; each of [mobileNumber], [alternativeNumber] and
    [aadharNumber] is the stored value when that is truthy and the empty
    string otherwise, so never [undefined] and never [null]; and [avatar] is
    the stored value when that is truthy and [null] otherwise, so never
    [undefined] and never the empty string. *)
Theorem profile_views_are_filled (authorization : option string)
        (b : Body.t) (st st' : state) (r : response) :
  (st', r) = me authorization st \/
  (st', r) = update_profile authorization b st ->
  status r = 200%N ->
  exists k l u m alt aad av,
    find_user (objects st) (users st)
              (token_user_id (bearer authorization)) = Some (k, l) /\
    deref (objects st') l = Some u /\
    user r = Some (Profile (User.id u) (User.email u) (User.name u)
                           m alt aad av) /\
    m = (if truthy (User.mobileNumber u)
         then User.mobileNumber u else VStr "") /\
    alt = (if truthy (User.alternativeNumber u)
           then User.alternativeNumber u else VStr "") /\
    aad = (if truthy (User.aadharNumber u)
           then User.aadharNumber u else VStr "") /\
    av = (if truthy (User.avatar u) then User.avatar u else VNull) /\
    (forall x, In x [m; alt; aad] -> x <> VUndefined /\ x <> VNull) /\
    av <> VUndefined /\ av <> VStr "".
Proof.
  intros Hr Hs.
  assert (Hv : exists k l u,
             find_user (objects st) (users st)
                       (token_user_id (bearer authorization)) = Some (k, l) /\
             deref (objects st') l = Some u /\
             user r = Some (profile_view u)).
  { destruct Hr as [Hr|Hr].
    - assert (Hs' : status (snd (me authorization st)) = 200%N)
        by now rewrite <- Hr.
      destruct (me_answered _ _ Hs') as (_ & k & l & u & Hf & Hu & He).
      rewrite He in Hr. injection Hr as -> ->.
      now exists k, l, u.
    - assert (Hs' : status (snd (update_profile authorization b st)) = 200%N)
        by now rewrite <- Hr.
      destruct (update_profile_updated _ _ _ Hs')
        as (k & l & u & Hf & Hu & _ & Hh & He).
      exists k, l, (assigned b u).
      split; [assumption|].
      replace st' with (fst (update_profile authorization b st))
        by now rewrite <- Hr.
      replace r with (snd (update_profile authorization b st))
        by now rewrite <- Hr.
      split; [now rewrite Hh, Nat.eqb_refl|now rewrite He]. }
  destruct Hv as (k & l & u & Hf & Hu & Hv).
  exists k, l, u,
    (or_else (User.mobileNumber u) (VStr "")),
    (or_else (User.alternativeNumber u) (VStr "")),
    (or_else (User.aadharNumber u) (VStr "")),
    (or_else (User.avatar u) VNull).
  repeat (split; [first [assumption|reflexivity]|]).
  split.
  - intros x Hx.
    destruct Hx as [<-|[<-|[<-|[]]]]; apply or_else_shown.
  - unfold or_else.
    destruct (User.avatar u) as [| |c|n|s| |]; simpl;
      try (split; discriminate).
    + destruct c; split; discriminate.
    + destruct (n =? 0)%Z; split; discriminate.
    + destruct (String.eqb_spec s ""); simpl; split; try discriminate.
      congruence.
Qed.

Lemma profile_views_are_filled_witness :
  status (snd (update_profile
                 ann_header
                 (Body.mk VUndefined VUndefined VUndefined VNull (VNum 0)
                          (VNum 7) (VStr ""))
                 two_users)) = 200%N /\
  user (snd (update_profile
               ann_header
               (Body.mk VUndefined VUndefined VUndefined VNull (VNum 0)
                        (VNum 7) (VStr ""))
               two_users)) =
  Some (Profile "1000" (VStr "a@x.com") (VStr "Ann") (VStr "") (VStr "")
                (VNum 7) VNull).
Proof.
  split; [reflexivity|].
  destruct (profile_views_are_filled
              ann_header
              (Body.mk VUndefined VUndefined VUndefined VNull (VNum 0)
                       (VNum 7) (VStr ""))
              two_users _ _ (or_intror (surjective_pairing _)) eq_refl)
    as (k & l & u & m & alt & aad & av & Hf & Hu & Hv & -> & -> & -> & ->
        & _).
  cbv in Hf. injection Hf as <- <-.
  cbv in Hu. injection Hu as <-. exact Hv.
Defined.

(** ** What every reachable store satisfies *)

Lemma toString_has_no_space (n : N) : occurs " " (toString n) = false.
Proof.
  unfold toString, NilZero.string_of_uint.
  assert (H : forall d, occurs " " (NilEmpty.string_of_uint d) = false)
    by (induction d; simpl; auto).
  destruct (N.to_uint n); try reflexivity; apply H.
Qed.

Lemma register_well_keyed (now : N) (b : Body.t) (st : state) :
  wf st -> well_keyed st -> well_keyed (fst (register now b st)).
Proof.
  intros Hwf Hwk.
  destruct (N.eq_dec (status (snd (register now b st))) 201) as [Hs|Hs];
    [|now rewrite register_rejected].
  destruct (register_created _ _ _ Hs) as (He & Hp & Hlen & Hdef & ->).
  simpl. apply get_prop_defined in Hdef as [Hown Hinh].
  intros k l Hin. simpl in Hin.
  apply In_set_prop_new in Hin; [|assumption].
  destruct Hin as [Heq|Hin].
  - injection Heq as -> ->. simpl.
    split; [assumption|].
    exists (new_user now b). rewrite deref_alloc_new.
    split; [reflexivity|]. split; [exact Hp|]. split; [exact Hlen|].
    now exists now.
  - destruct (Hwk k l Hin) as (Hi & u & Hu & Hpw).
    split; [assumption|].
    exists u. simpl. split; [now apply deref_alloc_old|]. auto.
Qed.

Lemma update_profile_accepted_email (authorization : option string)
      (b : Body.t) (st : state) (userEmail : string) (l : loc) :
  find_user (objects st) (users st)
            (token_user_id (bearer authorization)) = Some (userEmail, l) ->
  status (snd (update_profile authorization b st)) = 200%N ->
  truthy (bearer authorization) = true /\
  (truthy (Body.email b) = true -> Body.email b <> VStr userEmail ->
   defined (get_prop (users st) (to_string (Body.email b))) = false).
Proof.
  intros Hfind. unfold update_profile.
  destruct (truthy (bearer authorization)); [|simpl; discriminate].
  cbn [negb]. rewrite Hfind. intros Hs. split; [reflexivity|].
  intros He Hneq. apply strict_eq_neq in Hneq.
  rewrite He, Hneq in Hs. cbn [negb andb] in Hs.
  destruct (defined _); [simpl in Hs; discriminate|reflexivity].
Qed.

Lemma update_profile_well_keyed (authorization : option string) (b : Body.t)
      (st : state) :
  well_keyed st -> well_keyed (fst (update_profile authorization b st)).
Proof.
  intros Hwk.
  pose proof (update_profile_outcome authorization b st) as Ho.
  pose proof (update_profile_accepted_email authorization b st) as Hacc.
  destruct (update_profile authorization b st) as [st' r]. simpl in *.
  destruct Ho as [ | | userEmail l u h _ _ Hu _ _ _ _ Hh
                 | userEmail l u h ps _ Hfind Hu Hps _ Hh ];
    try assumption.
  - intros k l' Hin. simpl in Hin.
    destruct (Hwk k l' Hin) as (Hi & u' & Hu' & Hpw).
    split; [assumption|]. simpl. rewrite Hh.
    destruct (Nat.eqb_spec l' l) as [->|]; [|now exists u'].
    rewrite Hu in Hu'. injection Hu' as <-.
    eexists. split; [reflexivity|]. now destruct (truthy (Body.name b)).
  - assert (Hobj : forall k l',
               In (k, l') (users st) ->
               exists u', deref h l' = Some u' /\
                          truthy (User.password u') = true /\
                          length_below (User.password u') 6 = false /\
                          exists n, User.id u' = toString n).
    { intros k l' Hin.
      destruct (Hwk k l' Hin) as (_ & u' & Hu' & Hpw).
      rewrite Hh. destruct (Nat.eqb_spec l' l) as [->|]; [|now exists u'].
      rewrite Hu in Hu'. injection Hu' as <-.
      exists (assigned b u).
      rewrite assigned_password, assigned_id. auto. }
    destruct (find_user_sound _ _ _ _ _ Hfind) as [Hin0 _].
    intros k l' Hin. simpl in Hin. simpl.
    destruct Hps as [(He & Hneq & Hown & ->)|(_ & ->)].
    + apply In_delete_prop in Hin as [Hin _].
      apply In_set_prop_new in Hin; [|assumption].
      destruct Hin as [Heq|Hin].
      * injection Heq as -> ->.
        destruct (Hacc userEmail l Hfind eq_refl) as [_ Hdef].
        specialize (Hdef He Hneq).
        apply get_prop_defined in Hdef as [_ Hinh].
        split; [assumption|].
        apply (Hobj userEmail l Hin0).
      * destruct (Hwk k l' Hin) as (Hi & _).
        split; [assumption|]. now apply (Hobj k).
    + destruct (Hwk k l' Hin) as (Hi & _).
      split; [assumption|]. now apply (Hobj k).
Qed.

Lemma handle_well_keyed (q : request) (st : state) :
  wf st -> well_keyed st -> well_keyed (fst (handle q st)).
Proof.
  intros Hwf Hwk. pose proof (handle_unchanged q st) as Hq.
  destruct q as [now b|b|a|a b|b|]; try (rewrite Hq; exact Hwk).
  - now apply register_well_keyed.
  - now apply update_profile_well_keyed.
Qed.

Lemma run_well_keyed (qs : list request) (st : state) :
  wf st -> well_keyed st -> well_keyed (run qs st).
Proof.
  revert st. induction qs as [|q r IH]; simpl; intros st Hwf Hwk;
    [assumption|].
  apply IH; [now apply handle_wf|now apply handle_well_keyed].
Qed.

(** X7.  In every store the server can reach, the properties of [users]
    have distinct names and hold distinct, allocated user objects; each name
    is one that [Object.prototype] does not have; each user has a truthy
    password that is not a string or an array of fewer than six elements,
    and an id that is the decimal form of a clock reading, hence free of
    dashes and spaces. *)
Theorem reachable_store_invariant (st : state) :
  reachable st ->
  wf st /\ well_keyed st /\
  forall k l u, In (k, l) (users st) -> deref (objects st) l = Some u ->
                occurs "-" (User.id u) = false /\
                occurs " " (User.id u) = false.
Proof.
  intros Hr. pose proof (reachable_wf st Hr) as Hwf.
  assert (Hwk : well_keyed st).
  { destruct Hr as [qs ->].
    apply run_well_keyed; [apply wf_init|]. intros k l []. }
  split; [assumption|]. split; [assumption|].
  intros k l u Hin Hu.
  destruct (Hwk k l Hin) as (_ & u' & Hu' & _ & _ & n & Hid).
  rewrite Hu in Hu'. injection Hu' as <-. rewrite Hid.
  split; [apply toString_has_no_dash|apply toString_has_no_space].
Qed.

Lemma reachable_store_invariant_witness :
  reachable (run [Register 1000 (account (VArr []) (VNum 12345)
                                         (VStr "Nobody"))] init) /\
  keys (users (run [Register 1000 (account (VArr []) (VNum 12345)
                                           (VStr "Nobody"))] init)) = [""] /\
  well_keyed (run [Register 1000 (account (VArr []) (VNum 12345)
                                          (VStr "Nobody"))] init).
Proof.
  assert (Hr : reachable (run [Register 1000 (account (VArr []) (VNum 12345)
                                                      (VStr "Nobody"))] init))
    by now exists [Register 1000 (account (VArr []) (VNum 12345)
                                          (VStr "Nobody"))].
  split; [exact Hr|]. split; [reflexivity|].
  destruct (reachable_store_invariant _ Hr) as (_ & Hwk & _).
  exact Hwk.
Defined.

(** ** Tokens issued by the server *)

Lemma find_user_sole (st : state) (k : string) (l : loc) (u : User.t) :
  NoDup (keys (users st)) ->
  In (k, l) (users st) -> deref (objects st) l = Some u ->
  sole_owner st (User.id u) k = true ->
  find_user (objects st) (users st) (VStr (User.id u)) = Some (k, l).
Proof.
  intros Hnd Hin Hu Hsole.
  destruct (find_user _ _ _) as [[k' l']|] eqn:Hf.
  - destruct (find_user_sound _ _ _ _ _ Hf) as (Hin' & u' & Hu' & Hv).
    injection Hv as Hid.
    assert (k' = k)
      by (apply (sole_owner_spec _ _ _ _ _ _ Hsole Hin' Hu'); congruence).
    subst k'.
    apply (In_own _ _ _ Hnd) in Hin. apply (In_own _ _ _ Hnd) in Hin'.
    congruence.
  - rewrite find_user_None in Hf. exfalso.
    now apply (Hf k l u Hin Hu).
Qed.

(** X8.  In a reachable store, when a login succeeds and no other stored
    user shares the id, the profile read with the header ["Bearer "]
    followed by the token of the login answers 200 with the profile of the
    user that logged in, and returns the store it was given. *)
Theorem login_then_me (b : Body.t) (st : state) (l : loc) (u : User.t) :
  reachable st ->
  status (snd (login b st)) = 200%N ->
  own (to_string (Body.email b)) (users st) = Some l ->
  deref (objects st) l = Some u ->
  sole_owner st (User.id u) (to_string (Body.email b)) = true ->
  exists t,
    token (snd (login b st)) = Some t /\
    me (Some ("Bearer " ++ t)) st =
    (st, mkResponse 200 true None None (Some (profile_view u))) /\
    option_map view_id (user (snd (login b st))) = Some (User.id u).
Proof.
  intros Hr Hs Hown Hu Hsole.
  destruct (login_accepted b st Hs) as (He & Hp & l' & u' & Hown' & Hu' & Hpw).
  rewrite Hown in Hown'. injection Hown' as <-.
  rewrite Hu in Hu'. injection Hu' as <-.
  pose proof (reachable_wf st Hr) as Hwf.
  assert (Hwk : well_keyed st).
  { destruct Hr as [qs ->].
    apply run_well_keyed; [apply wf_init|]. intros k0 l0 []. }
  pose proof (own_In _ _ _ Hown) as Hin.
  destruct (Hwk _ _ Hin) as (_ & u' & Hu' & _ & _ & n & Hid).
  rewrite Hu in Hu'. injection Hu' as <-.
  assert (Hbearer : bearer (Some ("Bearer " ++ "token-" ++ User.id u))
                    = VStr ("token-" ++ User.id u)).
  { apply bearer_mint. simpl. rewrite Hid. apply toString_has_no_space. }
  assert (Htid : token_user_id (VStr ("token-" ++ User.id u))
                 = VStr (User.id u)).
  { apply token_user_id_mint. rewrite Hid. apply toString_has_no_dash. }
  assert (Hme : me (Some ("Bearer " ++ "token-" ++ User.id u)) st =
                (st, mkResponse 200 true None None (Some (profile_view u)))).
  { apply me_answers with (k := to_string (Body.email b)) (l := l).
    - now rewrite Hbearer.
    - rewrite Hbearer, Htid. apply find_user_sole; auto using wf_keys.
    - exact Hu. }
  rewrite (login_accepts b st l u He Hp Hown Hu Hpw).
  exists ("token-" ++ User.id u).
  split; [reflexivity|]. split; [exact Hme|reflexivity].
Qed.

Lemma login_then_me_witness :
  reachable two_users /\
  status (snd (login bob two_users)) = 200%N /\
  exists t,
    token (snd (login bob two_users)) = Some t /\
    me (Some ("Bearer " ++ t)) two_users =
    (two_users,
     mkResponse 200 true None None (Some (profile_view (new_user 2000 bob))))
    /\ option_map view_id (user (snd (login bob two_users))) = Some "2000".
Proof.
  assert (Hr : reachable two_users)
    by now exists [Register 1000 ann; Register 2000 bob].
  split; [exact Hr|]. split; [reflexivity|].
  apply (login_then_me bob two_users 1 (new_user 2000 bob) Hr);
    reflexivity.
Defined.

(** ** Updates that change nothing, and updates repeated *)

Lemma heap_ext (h h' : heap) :
  (forall l, deref h l = deref h' l) -> h = h'.
Proof. intros H. apply nth_error_ext. exact H. Qed.

Lemma assigned_nothing (b : Body.t) (u : User.t) :
  asks_nothing b = true -> assigned b u = u.
Proof.
  unfold asks_nothing, assigned. intros H.
  repeat (apply andb_true_iff in H as [H ?]).
  apply negb_true_iff in H.
  repeat match goal with
         | Heq : strict_eq _ VUndefined = true |- _ => rewrite Heq; clear Heq
         end.
  rewrite H. reflexivity.
Qed.

Lemma assigned_idem (b : Body.t) (u : User.t) :
  assigned b (assigned b u) = assigned b u.
Proof.
  unfold assigned.
  destruct (truthy (Body.name b));
    destruct (negb (strict_eq (Body.mobileNumber b) VUndefined));
    destruct (negb (strict_eq (Body.alternativeNumber b) VUndefined));
    destruct (negb (strict_eq (Body.aadharNumber b) VUndefined));
    destruct (negb (strict_eq (Body.avatar b) VUndefined));
    reflexivity.
Qed.

(** X9.  A profile update whose body carries no truthy name, no truthy
    email and none of the four profile keys returns the store it was given,
    whatever the header. *)
Theorem update_profile_asks_nothing (authorization : option string)
        (b : Body.t) (st : state) :
  asks_nothing b = true -> fst (update_profile authorization b st) = st.
Proof.
  intros Hb.
  pose proof (update_profile_outcome authorization b st) as Ho.
  destruct (update_profile authorization b st) as [st' r]. simpl in *.
  assert (He : truthy (Body.email b) = false).
  { unfold asks_nothing in Hb.
    repeat (apply andb_true_iff in Hb as [Hb ?]).
    now apply negb_true_iff. }
  destruct Ho as [ | | userEmail l u h _ _ _ He' _ _ _ _
                 | userEmail l u h ps _ _ Hu Hps _ Hh ];
    try reflexivity; [congruence|].
  destruct Hps as [(He' & _)|(_ & ->)]; [congruence|].
  destruct st as [h0 ps0]. simpl in *. f_equal.
  apply heap_ext. intros l'. rewrite Hh.
  destruct (Nat.eqb_spec l' l) as [->|]; [|reflexivity].
  now rewrite assigned_nothing.
Qed.

Lemma update_profile_asks_nothing_witness :
  asks_nothing (account VNull (VStr "ignored") (VStr "")) = true /\
  fst (update_profile ann_header
                      (account VNull (VStr "ignored") (VStr "")) two_users)
  = two_users.
Proof.
  split; [reflexivity|].
  apply (update_profile_asks_nothing
           ann_header (account VNull (VStr "ignored") (VStr "")) two_users).
  reflexivity.
Defined.

(** After a successful update by a user whose id no other stored user
    shares, the scan for the token's id ends on the same object, under the
    new email when the update changed it and under the old one otherwise. *)
Lemma updated_scan (authorization : option string) (b : Body.t) (st : state)
      (userEmail : string) (l : loc) (u : User.t) :
  find_user (objects st) (users st)
            (token_user_id (bearer authorization)) = Some (userEmail, l) ->
  deref (objects st) l = Some u ->
  status (snd (update_profile authorization b st)) = 200%N ->
  sole_owner st (User.id u) userEmail = true ->
  exists k,
    find_user (objects (fst (update_profile authorization b st)))
              (users (fst (update_profile authorization b st)))
              (token_user_id (bearer authorization)) = Some (k, l) /\
    (truthy (Body.email b) = true -> k = to_string (Body.email b)) /\
    (truthy (Body.email b) = false -> k = userEmail).
Proof.
  intros Hfind Hu Hs Hsole.
  destruct (update_profile_updated _ _ _ Hs)
    as (k0 & l0 & u0 & Hfind0 & Hu0 & Hps & Hh & _).
  rewrite Hfind in Hfind0. injection Hfind0 as <- <-.
  rewrite Hu in Hu0. injection Hu0 as <-.
  destruct (find_user_sound _ _ _ _ _ Hfind) as (Hin & u1 & Hu1 & Hv).
  rewrite Hu in Hu1. injection Hu1 as <-.
  assert (Hext : forall ps,
             find_user (objects (fst (update_profile authorization b st))) ps
                       (token_user_id (bearer authorization)) =
             find_user (objects st) ps (token_user_id (bearer authorization))).
  { intros ps. apply find_user_ext. intros l'. rewrite Hh.
    destruct (Nat.eqb_spec l' l) as [->|]; [|reflexivity].
    rewrite Hu. simpl. now rewrite assigned_id. }
  rewrite Hext.
  destruct Hps as [(He & Hneq & Hown & ->)|(Hc & ->)].
  - exists (to_string (Body.email b)).
    split; [|split; [|congruence]].
    + destruct (find_user (objects st) (delete_prop _ _) _)
        as [[k' l']|] eqn:Hf.
      * destruct (find_user_sound _ _ _ _ _ Hf) as (Hin' & u' & Hu' & Hv').
        apply In_delete_prop in Hin' as [Hin' Hk']. simpl in Hk'.
        apply In_set_prop_new in Hin'; [|assumption].
        destruct Hin' as [Heq|Hin']; [now rewrite Heq|].
        exfalso. apply Hk'.
        apply (sole_owner_spec _ _ _ _ _ _ Hsole Hin' Hu'). congruence.
      * exfalso. rewrite find_user_None in Hf.
        apply (Hf (to_string (Body.email b)) l u); [|assumption|congruence].
        apply In_delete_prop. split.
        -- apply In_set_prop_new; [assumption|now left].
        -- simpl. intros Heq. apply own_None in Hown. apply Hown.
           rewrite Heq. apply (in_map fst) in Hin. exact Hin.
    + reflexivity.
  - exists userEmail. split; [exact Hfind|].
    split; [|reflexivity].
    intros He. destruct Hc as [Hc|Hc]; [congruence|now rewrite Hc].
Qed.

(** X10.  A successful profile update by a user whose id no other stored
    user shares, with an email that is a string when it is truthy, is
    idempotent: the same request, sent again, gets the same answer and
    leaves the store as the first one left it.  (A truthy email that is not
    a string is never [===] to the property name it was stored under, so the
    repeated request is refused as a change to an email in use.) *)
Theorem update_profile_idempotent (authorization : option string)
        (b : Body.t) (st : state) (userEmail : string) (l : loc)
        (u : User.t) :
  find_user (objects st) (users st)
            (token_user_id (bearer authorization)) = Some (userEmail, l) ->
  deref (objects st) l = Some u ->
  status (snd (update_profile authorization b st)) = 200%N ->
  sole_owner st (User.id u) userEmail = true ->
  (truthy (Body.email b) = true -> exists s, Body.email b = VStr s) ->
  update_profile authorization b (fst (update_profile authorization b st)) =
  update_profile authorization b st.
Proof.
  intros Hfind Hu Hs Hsole Hstr.
  destruct (updated_scan _ _ _ _ _ _ Hfind Hu Hs Hsole)
    as (k & Hfind1 & Hk1' & Hk2).
  assert (Hk1 : truthy (Body.email b) = true -> Body.email b = VStr k).
  { intros He. destruct (Hstr He) as [s Hb].
    rewrite (Hk1' He), Hb. reflexivity. }
  destruct (update_profile_accepted_email _ _ _ _ _ Hfind Hs) as [Htok _].
  destruct (update_profile_updated _ _ _ Hs)
    as (k0 & l0 & u0 & Hfind0 & Hu0 & _ & Hh & Hr).
  rewrite Hfind in Hfind0. injection Hfind0 as <- <-.
  rewrite Hu in Hu0. injection Hu0 as <-.
  rewrite (surjective_pairing (update_profile authorization b st)) at 2.
  rewrite Hr.
  set (st1 := fst (update_profile authorization b st)) in *.
  assert (Hu1 : deref (objects st1) l = Some (assigned b u))
    by now rewrite Hh, Nat.eqb_refl.
  pose proof (update_profile_outcome authorization b st1) as Ho.
  destruct (update_profile authorization b st1) as [st2 r2]. simpl in Ho.
  destruct Ho as [ Hno | _ Hnone
                 | k' l' u' h _ Hf' _ He' Hneq' _ _ _
                 | k' l' u' h ps _ Hf' Hu' Hps _ Hh' ].
  - congruence.
  - congruence.
  - rewrite Hfind1 in Hf'. injection Hf' as <- <-.
    exfalso. apply Hneq'. now apply Hk1.
  - rewrite Hfind1 in Hf'. injection Hf' as <- <-.
    rewrite Hu1 in Hu'. injection Hu' as <-.
    rewrite assigned_idem. f_equal.
    destruct Hps as [(He' & Hneq' & _)|(_ & ->)];
      [exfalso; apply Hneq'; now apply Hk1|].
    destruct st1 as [h1 ps1]. simpl in *. f_equal.
    apply heap_ext. intros l'. rewrite Hh'.
    destruct (Nat.eqb_spec l' l) as [->|]; [|reflexivity].
    now rewrite assigned_idem, Hu1.
Qed.

Lemma update_profile_idempotent_witness :
  sole_owner two_users "1000" "a@x.com" = true /\
  status (snd (update_profile
                 ann_header
                 (Body.mk (VStr "c@x.com") VUndefined (VStr "Zed")
                          (VStr "999") VUndefined VUndefined VUndefined)
                 two_users)) = 200%N /\
  update_profile
    ann_header
    (Body.mk (VStr "c@x.com") VUndefined (VStr "Zed") (VStr "999")
             VUndefined VUndefined VUndefined)
    (fst (update_profile
            ann_header
            (Body.mk (VStr "c@x.com") VUndefined (VStr "Zed") (VStr "999")
                     VUndefined VUndefined VUndefined)
            two_users)) =
  update_profile
    ann_header
    (Body.mk (VStr "c@x.com") VUndefined (VStr "Zed") (VStr "999")
             VUndefined VUndefined VUndefined)
    two_users.
Proof.
  split; [reflexivity|]. split; [reflexivity|].
  apply (update_profile_idempotent
           ann_header
           (Body.mk (VStr "c@x.com") VUndefined (VStr "Zed") (VStr "999")
                    VUndefined VUndefined VUndefined)
           two_users "a@x.com" 0 (new_user 1000 ann));
    try reflexivity.
  intros _. now exists "c@x.com".
Defined.

(** X11.  After a successful profile update by a user whose id no other
    stored user shares, the profile read with the same header shows exactly
    the profile that the update returned. *)
Theorem update_then_me (authorization : option string) (b : Body.t)
        (st : state) (userEmail : string) (l : loc) (u : User.t) :
  find_user (objects st) (users st)
            (token_user_id (bearer authorization)) = Some (userEmail, l) ->
  deref (objects st) l = Some u ->
  status (snd (update_profile authorization b st)) = 200%N ->
  sole_owner st (User.id u) userEmail = true ->
  status (snd (me authorization (fst (update_profile authorization b st))))
  = 200%N /\
  user (snd (me authorization (fst (update_profile authorization b st)))) =
  user (snd (update_profile authorization b st)).
Proof.
  intros Hfind Hu Hs Hsole.
  destruct (updated_scan _ _ _ _ _ _ Hfind Hu Hs Hsole) as (k & Hfind1 & _).
  destruct (update_profile_accepted_email _ _ _ _ _ Hfind Hs) as [Htok _].
  destruct (update_profile_updated _ _ _ Hs)
    as (k0 & l0 & u0 & Hfind0 & Hu0 & _ & Hh & Hr).
  rewrite Hfind in Hfind0. injection Hfind0 as <- <-.
  rewrite Hu in Hu0. injection Hu0 as <-.
  rewrite (me_answers authorization _ k l (assigned b u) Htok Hfind1);
    [|now rewrite Hh, Nat.eqb_refl].
  rewrite Hr. split; reflexivity.
Qed.

Lemma update_then_me_witness :
  sole_owner two_users "1000" "a@x.com" = true /\
  user (snd (me ann_header
                (fst (update_profile
                        ann_header
                        (Body.mk (VStr "c@x.com") VUndefined VUndefined
                                 (VStr "999") VUndefined VUndefined VUndefined)
                        two_users)))) =
  user (snd (update_profile
               ann_header
               (Body.mk (VStr "c@x.com") VUndefined VUndefined (VStr "999")
                        VUndefined VUndefined VUndefined)
               two_users)).
Proof.
  split; [reflexivity|].
  apply (update_then_me
           ann_header
           (Body.mk (VStr "c@x.com") VUndefined VUndefined (VStr "999")
                    VUndefined VUndefined VUndefined)
           two_users "a@x.com" 0 (new_user 1000 ann));
    reflexivity.
Defined.

(** ** What a change of email does to login and registration *)

Lemma rekeyed_store (authorization : option string) (b : Body.t)
      (st : state) (userEmail : string) (l : loc) (u : User.t) :
  find_user (objects st) (users st)
            (token_user_id (bearer authorization)) = Some (userEmail, l) ->
  deref (objects st) l = Some u ->
  status (snd (update_profile authorization b st)) = 200%N ->
  truthy (Body.email b) = true ->
  Body.email b <> VStr userEmail ->
  own (to_string (Body.email b))
      (users (fst (update_profile authorization b st))) = Some l /\
  own userEmail (users (fst (update_profile authorization b st))) = None /\
  deref (objects (fst (update_profile authorization b st))) l =
  Some (assigned b u).
Proof.
  intros Hfind Hu Hs He Hneq.
  destruct (update_profile_updated _ _ _ Hs)
    as (k0 & l0 & u0 & Hfind0 & Hu0 & Hps & Hh & _).
  rewrite Hfind in Hfind0. injection Hfind0 as <- <-.
  rewrite Hu in Hu0. injection Hu0 as <-.
  destruct Hps as [(_ & _ & Hown & ->)|([Hc|Hc] & _)];
    [|congruence|contradiction].
  destruct (find_user_sound _ _ _ _ _ Hfind) as (Hin & _).
  split; [|split].
  - rewrite own_delete_prop.
    destruct (String.eqb_spec (to_string (Body.email b)) userEmail)
      as [Heq|]; [|now apply own_set_prop_new].
    exfalso. apply own_None in Hown. apply Hown. rewrite Heq.
    apply (in_map fst) in Hin. exact Hin.
  - now rewrite own_delete_prop, String.eqb_refl.
  - now rewrite Hh, Nat.eqb_refl.
Qed.

Lemma login_rejects_unknown (b : Body.t) (st : state) :
  truthy (Body.email b) = true -> truthy (Body.password b) = true ->
  own (to_string (Body.email b)) (users st) = None ->
  login b st = (st, failure 401 "Invalid credentials").
Proof.
  intros He Hp Hown. unfold login, get_prop. rewrite He, Hp, Hown.
  cbn [negb orb].
  destruct (existsb (String.eqb (to_string (Body.email b))) object_prototype);
    [|reflexivity].
  now rewrite (truthy_defined _ Hp).
Qed.

(** X12.  In a reachable store, after a user has changed email, a login
    with the new email and the unchanged password succeeds and returns the
    token of the same id, provided the password is a string, a number or a
    boolean (an array or an object is never [===] to itself once sent
    again); and a login with a truthy email whose property key is the old
    email, with any truthy password, is answered 401. *)
Theorem rekey_then_login (authorization : option string) (b b1 b2 : Body.t)
        (st : state) (userEmail : string) (l : loc) (u : User.t) :
  reachable st ->
  find_user (objects st) (users st)
            (token_user_id (bearer authorization)) = Some (userEmail, l) ->
  deref (objects st) l = Some u ->
  status (snd (update_profile authorization b st)) = 200%N ->
  truthy (Body.email b) = true ->
  Body.email b <> VStr userEmail ->
  Body.email b1 = Body.email b ->
  Body.password b1 = User.password u ->
  primitive (User.password u) = true ->
  truthy (Body.email b2) = true ->
  to_string (Body.email b2) = userEmail ->
  truthy (Body.password b2) = true ->
  status (snd (login b1 (fst (update_profile authorization b st)))) = 200%N /\
  token (snd (login b1 (fst (update_profile authorization b st)))) =
  Some ("token-" ++ User.id u) /\
  snd (login b2 (fst (update_profile authorization b st))) =
  failure 401 "Invalid credentials".
Proof.
  intros Hr Hfind Hu Hs He Hneq He1 Hp1 Hprim He2 Hk2 Hp2.
  destruct (rekeyed_store _ _ _ _ _ _ Hfind Hu Hs He Hneq)
    as (Hnew & Hold & Hobj).
  assert (Hwk : well_keyed st).
  { destruct Hr as [qs ->].
    apply run_well_keyed; [apply wf_init|]. intros k0 l0 []. }
  destruct (find_user_sound _ _ _ _ _ Hfind) as (Hin & _).
  destruct (Hwk _ _ Hin) as (_ & u' & Hu' & Hpw & _).
  rewrite Hu in Hu'. injection Hu' as <-.
  assert (H1 : login b1 (fst (update_profile authorization b st)) =
               (fst (update_profile authorization b st),
                mkResponse 200 true (Some "Login successful")
                           (Some ("token-" ++ User.id (assigned b u)))
                           (Some (Account (User.id (assigned b u))
                                          (User.email (assigned b u))
                                          (User.name (assigned b u)))))).
  { apply login_accepts with (l := l).
    - now rewrite He1.
    - now rewrite Hp1.
    - now rewrite He1.
    - exact Hobj.
    - rewrite assigned_password, Hp1. now apply strict_eq_refl. }
  assert (H2 : login b2 (fst (update_profile authorization b st)) =
               (fst (update_profile authorization b st),
                failure 401 "Invalid credentials")).
  { apply login_rejects_unknown; [assumption|assumption|now rewrite Hk2]. }
  rewrite H1, H2. simpl. rewrite assigned_id. repeat split.
Qed.

Lemma rekey_then_login_witness :
  reachable two_users /\
  status (snd (login (account (VStr "c@x.com") (VStr "secret1") VUndefined)
                     (fst (update_profile
                             ann_header
                             (account (VStr "c@x.com") VUndefined VUndefined)
                             two_users)))) = 200%N /\
  snd (login ann
             (fst (update_profile
                     ann_header
                     (account (VStr "c@x.com") VUndefined VUndefined)
                     two_users))) = failure 401 "Invalid credentials".
Proof.
  assert (Hr : reachable two_users)
    by now exists [Register 1000 ann; Register 2000 bob].
  split; [exact Hr|].
  destruct (rekey_then_login
              ann_header (account (VStr "c@x.com") VUndefined VUndefined)
              (account (VStr "c@x.com") (VStr "secret1") VUndefined) ann
              two_users "a@x.com" 0 (new_user 1000 ann) Hr
              eq_refl eq_refl eq_refl eq_refl)
    as (H1 & _ & H3); try reflexivity; [discriminate|].
  split; assumption.
Defined.



Lemma update_profile_email_taken_witness :
  snd (update_profile ann_header
                      (account (VStr "b@x.com") VUndefined VUndefined)
                      two_users)
  = failure 400 "Email already in use" /\
  users (fst (update_profile ann_header
                             (account (VStr "b@x.com") VUndefined VUndefined)
                             two_users)) = users two_users.
Proof.
  destruct (update_profile_email_taken
              ann_header (account (VStr "b@x.com") VUndefined VUndefined)
              two_users "a@x.com" 0 (new_user 1000 ann)
              eq_refl eq_refl eq_refl eq_refl)
    as (H1 & H2 & _); try reflexivity; [discriminate|].
  split; assumption.
Defined.

(** X15.  No profile update, accepted or rejected, changes the id, the
    password or the email field of any object, and none allocates or frees
    an object. *)
Theorem update_profile_immutable_fields (authorization : option string)
        (b : Body.t) (st : state) (l : loc) :
  List.length (objects (fst (update_profile authorization b st))) =
  List.length (objects st) /\
  option_map User.id
             (deref (objects (fst (update_profile authorization b st))) l) =
  option_map User.id (deref (objects st) l) /\
  option_map User.password
             (deref (objects (fst (update_profile authorization b st))) l) =
  option_map User.password (deref (objects st) l) /\
  option_map User.email
             (deref (objects (fst (update_profile authorization b st))) l) =
  option_map User.email (deref (objects st) l).
Proof.
  pose proof (update_profile_outcome authorization b st) as Ho.
  destruct (update_profile authorization b st) as [st' r]. simpl in *.
  destruct Ho as [ | | userEmail l0 u h _ _ Hu _ _ _ Hlen Hh
                 | userEmail l0 u h ps _ _ Hu _ Hlen Hh ]; simpl;
    try (repeat split; reflexivity);
    (split; [exact Hlen|]); rewrite Hh;
    (destruct (Nat.eqb_spec l l0) as [->|]; [|repeat split; reflexivity]);
    rewrite Hu; simpl.
  - destruct (truthy (Body.name b)); repeat split; reflexivity.
  - rewrite assigned_id, assigned_password, assigned_email.
    repeat split; reflexivity.
Qed.

(** * The main server *)

(** ** Substrings *)

Lemma prefix_refl_append (s b : string) : prefix s (s ++ b) = true.
Proof.
  induction s as [|c r IH]; simpl; [now destruct b|].
  destruct (ascii_dec c c); [assumption|contradiction].
Qed.

Lemma prefix_trans (a b c : string) :
  prefix a b = true -> prefix b c = true -> prefix a c = true.
Proof.
  revert b c. induction a as [|x a IH]; intros b c Hab Hbc.
  - now destruct c.
  - destruct b as [|y b]; [discriminate|].
    destruct c as [|z c]; [discriminate|].
    simpl in *.
    destruct (ascii_dec x y) as [->|]; [|discriminate].
    destruct (ascii_dec y z) as [->|]; [|discriminate].
    now apply (IH b c).
Qed.

Lemma includes_of_prefix (s sub : string) :
  prefix sub s = true -> includes s sub = true.
Proof. intros H. destruct s; cbn [includes]; rewrite H; reflexivity. Qed.

Lemma includes_middle (a s b : string) : includes (a ++ s ++ b) s = true.
Proof.
  induction a as [|c r IH].
  - change ("" ++ s ++ b) with (s ++ b).
    apply includes_of_prefix, prefix_refl_append.
  - simpl. rewrite IH. apply orb_true_r.
Qed.

Lemma includes_prefix (p ip o : string) :
  prefix p ip = true -> includes o ip = true -> includes o p = true.
Proof.
  intros Hp. induction o as [|c r IH]; cbn [includes].
  - rewrite !orb_false_r. intros H. now apply (prefix_trans p ip).
  - intros H. apply orb_true_iff in H as [H|H].
    + now rewrite (prefix_trans p ip _ Hp H).
    + rewrite (IH H). apply orb_true_r.
Qed.

(** ** The local address *)

Lemma inner_scan_private (nis : list net_interface) (ip : string) :
  prefix "192.168." ip = true ->
  prefix "192.168."
         (fold_left (fun ip netInterface =>
                       if on_local_network netInterface
                       then address netInterface else ip) nis ip) = true.
Proof.
  revert ip. induction nis as [|ni r IH]; intros ip Hip; [exact Hip|].
  cbn [fold_left]. apply IH.
  destruct (on_local_network ni) eqn:Hq; [|exact Hip].
  unfold on_local_network in Hq.
  now apply andb_true_iff in Hq as [_ Hq].
Qed.

Lemma inner_scan_none (nis : list net_interface) (ip : string) :
  forallb (fun ni => negb (on_local_network ni)) nis = true ->
  fold_left (fun ip netInterface =>
               if on_local_network netInterface
               then address netInterface else ip) nis ip = ip.
Proof.
  revert ip. induction nis as [|ni r IH]; intros ip H; [reflexivity|].
  simpl in H. apply andb_true_iff in H as [Hni Hr].
  apply negb_true_iff in Hni. cbn [fold_left]. rewrite Hni. now apply IH.
Qed.

Lemma outer_scan_private (ifs : list (string * list net_interface))
      (ip : string) :
  prefix "192.168." ip = true ->
  prefix "192.168."
         (fold_left
            (fun ip entry =>
               fold_left (fun ip netInterface =>
                            if on_local_network netInterface
                            then address netInterface else ip)
                         (snd entry) ip) ifs ip) = true.
Proof.
  revert ip. induction ifs as [|e r IH]; intros ip Hip; [exact Hip|].
  cbn [fold_left]. apply IH. now apply inner_scan_private.
Qed.

Lemma outer_scan_flat (ifs : list (string * list net_interface))
      (ip : string) :
  fold_left
    (fun ip entry =>
       fold_left (fun ip netInterface =>
                    if on_local_network netInterface
                    then address netInterface else ip)
                 (snd entry) ip) ifs ip =
  fold_left (fun ip netInterface =>
               if on_local_network netInterface
               then address netInterface else ip)
            (List.concat (map snd ifs)) ip.
Proof.
  revert ip. induction ifs as [|e r IH]; intros ip; [reflexivity|].
  cbn [fold_left map List.concat]. now rewrite fold_left_app, IH.
Qed.

Lemma last_cons (A : Type) (a d : A) (l : list A) :
  last (a :: l) d = last l a.
Proof.
  revert a d. induction l as [|x r IH]; intros a d; [reflexivity|].
  change (last (a :: x :: r) d) with (last (x :: r) d).
  rewrite IH. symmetry. apply IH.
Qed.

Lemma inner_scan_last (nis : list net_interface) (ip : string) :
  fold_left (fun ip netInterface =>
               if on_local_network netInterface
               then address netInterface else ip) nis ip =
  last (map address (filter on_local_network nis)) ip.
Proof.
  revert ip. induction nis as [|ni r IH]; intros ip; [reflexivity|].
  cbn [fold_left filter]. rewrite IH.
  destruct (on_local_network ni); [|reflexivity].
  cbn [map]. now rewrite last_cons.
Qed.

(** X16.  The address found for the local network always starts with
    ["192.168."].  With the interfaces of all names taken in the order of
    enumeration, it is the address of the last one that is an external IPv4
    interface with an address starting with ["192.168."], wherever that one
    stands, and the fallback ["192.168.1.4"] when there is none. *)
Theorem localIP_is_private
        (networkInterfaces : list (string * list net_interface)) :
  prefix "192.168." (localIP networkInterfaces) = true /\
  localIP networkInterfaces =
  last (map address
            (filter on_local_network (List.concat (map snd networkInterfaces))))
       "192.168.1.4" /\
  (forallb (fun ni => negb (on_local_network ni))
           (List.concat (map snd networkInterfaces)) = true ->
   localIP networkInterfaces = "192.168.1.4") /\
  (forall before ni after,
      List.concat (map snd networkInterfaces) = (before ++ ni :: after)%list ->
      on_local_network ni = true ->
      forallb (fun ni => negb (on_local_network ni)) after = true ->
      localIP networkInterfaces = address ni).
Proof.
  unfold localIP. split; [|split; [|split]].
  - now apply outer_scan_private.
  - rewrite outer_scan_flat. apply inner_scan_last.
  - intros Hnone. rewrite outer_scan_flat. now apply inner_scan_none.
  - intros before ni after Hflat Hq Hafter.
    rewrite outer_scan_flat, Hflat, fold_left_app.
    cbn [fold_left]. rewrite Hq. now apply inner_scan_none.
Qed.

Lemma localIP_is_private_witness :
  on_local_network (mkInterface "IPv4" false "192.168.0.17") = true /\
  localIP [("eth0", [mkInterface "IPv6" false "fe80::1";
                     mkInterface "IPv4" false "192.168.0.9";
                     mkInterface "IPv4" false "192.168.0.17";
                     mkInterface "IPv4" false "10.0.0.5"]);
           ("lo", [mkInterface "IPv4" true "127.0.0.1"]);
           ("tun0", [mkInterface "IPv4" true "192.168.9.9"])]
  = "192.168.0.17".
Proof.
  split; [reflexivity|].
  destruct (localIP_is_private
              [("eth0", [mkInterface "IPv6" false "fe80::1";
                         mkInterface "IPv4" false "192.168.0.9";
                         mkInterface "IPv4" false "192.168.0.17";
                         mkInterface "IPv4" false "10.0.0.5"]);
               ("lo", [mkInterface "IPv4" true "127.0.0.1"]);
               ("tun0", [mkInterface "IPv4" true "192.168.9.9"])])
    as (_ & _ & _ & Hlast).
  apply (Hlast [mkInterface "IPv6" false "fe80::1";
                mkInterface "IPv4" false "192.168.0.9"]
               (mkInterface "IPv4" false "192.168.0.17")
               [mkInterface "IPv4" false "10.0.0.5";
                mkInterface "IPv4" true "127.0.0.1";
                mkInterface "IPv4" true "192.168.9.9"]); reflexivity.
Defined.

(** ** Allowed origins *)

Lemma development_env (env : option string) :
  match env with
  | Some e => e =? "development"
  | None => false
  end = true <-> env = Some "development".
Proof.
  destruct env as [e|]; [|split; discriminate].
  destruct (String.eqb_spec e "development") as [->|Hne]; split; auto;
    try discriminate. intros [= H]. contradiction.
Qed.

(** X17.  With the address found by [localIP], an origin is allowed exactly
    when the request has no origin or an empty one, or the origin contains
    ["localhost"], ["127.0.0.1"] or ["192.168."], or it is one of the two
    deployed front ends, or the server runs in development; the test on the
    local address and the six other entries of the list add nothing. *)
Theorem origin_allowed_iff
        (networkInterfaces : list (string * list net_interface))
        (NODE_ENV : option string) (origin : option string) :
  origin_allowed (localIP networkInterfaces) NODE_ENV origin = true <->
  origin = None \/ origin = Some "" \/ NODE_ENV = Some "development" \/
  exists o,
    origin = Some o /\
    (includes o "localhost" = true \/ includes o "127.0.0.1" = true \/
     includes o "192.168." = true \/
     o = "https://frontend-5e8w8456g-rinabartemp05-1146s-projects.vercel.app"
     \/
     o = "https://frontend-oukmc3i0x-rinabartemp05-1146s-projects.vercel.app").
Proof.
  assert (Hip : prefix "192.168." (localIP networkInterfaces) = true)
    by now apply outer_scan_private.
  set (ip := localIP networkInterfaces) in *.
  unfold origin_allowed.
  destruct origin as [o|]; [|split; auto].
  destruct (String.eqb_spec o "") as [->|Hne]; [split; auto|].
  destruct (includes o "localhost") eqn:H1; cbn [orb].
  { split; [|reflexivity]. intros _. do 3 right. exists o. auto. }
  destruct (includes o "127.0.0.1") eqn:H2; cbn [orb].
  { split; [|reflexivity]. intros _. do 3 right. exists o. auto. }
  destruct (includes o "192.168.") eqn:H4.
  { rewrite orb_true_r. split; [|reflexivity].
    intros _. do 3 right. exists o. auto 6. }
  destruct (includes o ip) eqn:H3.
  { rewrite (includes_prefix "192.168." ip o Hip H3) in H4. discriminate. }
  cbn [orb].
  destruct (existsb (String.eqb o) (allowedOrigins ip)) eqn:Hlist.
  - split; [|reflexivity]. intros _.
    apply existsb_exists in Hlist as (x & Hin & Heq).
    apply String.eqb_eq in Heq. subst x.
    unfold allowedOrigins in Hin. cbn [In] in Hin.
    destruct Hin as [H|[H|[H|[H|[H|[H|[H|[H|[]]]]]]]]];
      try (rewrite <- H in H1; vm_compute in H1; discriminate);
      try (rewrite <- H, (includes_middle "http://" ip _) in H3;
           discriminate).
    + do 3 right. exists o. split; [reflexivity|].
      do 3 right. left. now symmetry.
    + do 3 right. exists o. split; [reflexivity|].
      do 4 right. now symmetry.
  - assert (Hnot : forall o',
               Some o = Some o' ->
               ~ (includes o' "localhost" = true \/
                  includes o' "127.0.0.1" = true \/
                  includes o' "192.168." = true \/
                  o' = "https://frontend-5e8w8456g-rinabartemp05-1146s-projects.vercel.app"
                  \/
                  o' = "https://frontend-oukmc3i0x-rinabartemp05-1146s-projects.vercel.app")).
    { intros o' [= <-] [H|[H|[H|[H|H]]]]; try congruence; subst o.
      - pose proof (@existsb_nth _ (String.eqb _) (allowedOrigins ip) 6 ""
                                ltac:(simpl; lia) Hlist) as Hn.
        cbn [nth allowedOrigins] in Hn.
        rewrite String.eqb_refl in Hn. discriminate.
      - pose proof (@existsb_nth _ (String.eqb _) (allowedOrigins ip) 7 ""
                                ltac:(simpl; lia) Hlist) as Hn.
        cbn [nth allowedOrigins] in Hn.
        rewrite String.eqb_refl in Hn. discriminate. }
    destruct (match NODE_ENV with
              | Some e => e =? "development"
              | None => false
              end) eqn:Henv.
    + apply development_env in Henv. split; auto.
    + split; [discriminate|].
      intros [H|[H|[H|(o' & Ho & H)]]]; try discriminate.
      * congruence.
      * apply development_env in H. congruence.
      * exfalso. now apply (Hnot o').
Qed.

(** X18.  An origin is allowed as soon as it contains ["localhost"],
    ["127.0.0.1"] or ["192.168."] anywhere, whatever surrounds it and
    whatever the environment: the host is not singled out. *)
Theorem origin_allowed_by_substring (ip : string) (NODE_ENV : option string)
        (a b : string) :
  origin_allowed ip NODE_ENV (Some (a ++ "localhost" ++ b)) = true /\
  origin_allowed ip NODE_ENV (Some (a ++ "127.0.0.1" ++ b)) = true /\
  origin_allowed ip NODE_ENV (Some (a ++ "192.168." ++ b)) = true.
Proof.
  unfold origin_allowed. repeat split.
  - rewrite (includes_middle a "localhost" b).
    now destruct (_ =? "").
  - rewrite (includes_middle a "127.0.0.1" b), orb_true_r.
    now destruct (_ =? "").
  - rewrite (includes_middle a "192.168." b), orb_true_r.
    now destruct (_ =? "").
Qed.

(** ** Login notices *)

(** X19.  The notification handler refuses only a request without email,
    with 400 and without touching the mailer; for every other request the
    answer is 200 with [success: true], whether the mailer is configured or
    not and whether the transport throws or not. *)
Theorem notification_never_blocks
        (isEmailConfigured : bool)
        (transporter : option (mail -> option string))
        (ip : value) (now : string) (b : Notice.t) :
  (truthy (Notice.email b) = false ->
   send_login_notification isEmailConfigured transporter ip now b =
   (mkNotice 400 false None (Some "Email is required") None None, [])) /\
  (truthy (Notice.email b) = true ->
   n_status (fst (send_login_notification isEmailConfigured transporter
                                          ip now b)) = 200%N /\
   n_success (fst (send_login_notification isEmailConfigured transporter
                                           ip now b)) = true).
Proof.
  unfold send_login_notification. split; intros ->; [reflexivity|].
  cbn [negb].
  destruct isEmailConfigured; [|split; reflexivity].
  destruct transporter as [sendMail|]; [|split; reflexivity].
  destruct (sendMail _); split; reflexivity.
Qed.

Lemma notification_never_blocks_witness :
  n_status (fst (send_login_notification
                   true (Some (fun _ => Some "ECONNREFUSED")) VUndefined
                   "2024-01-15T10:00:00.000Z"
                   (Notice.mk (VStr "a@x.com") VUndefined VUndefined
                              VUndefined VUndefined VUndefined VUndefined)))
  = 200%N /\
  n_success (fst (send_login_notification
                    true (Some (fun _ => Some "ECONNREFUSED")) VUndefined
                    "2024-01-15T10:00:00.000Z"
                    (Notice.mk (VStr "a@x.com") VUndefined VUndefined
                               VUndefined VUndefined VUndefined VUndefined)))
  = true.
Proof.
  apply (notification_never_blocks
           true (Some (fun _ => Some "ECONNREFUSED")) VUndefined
           "2024-01-15T10:00:00.000Z"
           (Notice.mk (VStr "a@x.com") VUndefined VUndefined VUndefined
                      VUndefined VUndefined VUndefined)).
  reflexivity.
Defined.





(** ** The database connection *)

(** X22.  [connectToDatabase] calls the driver at most once, and only with
    a URI that is set and free of ["xxxxx"] and of the three password
    placeholders; the server counts as connected exactly when that call was
    made and did not throw, so a placeholder or a failing driver leaves it in
    demo mode. *)
Theorem connectToDatabase_outcomes (MONGODB_URI : option string)
        (connect : string -> option string) :
  let res := connectToDatabase MONGODB_URI connect in
  (forall uri,
      snd res = [uri] <->
      MONGODB_URI = Some uri /\ uri <> "" /\
      includes uri "xxxxx" = false /\
      includes uri "YOUR_PASSWORD_HERE" = false /\
      includes uri "<db_password>" = false /\
      includes uri "your-actual-password" = false) /\
  (snd res = [] \/ exists uri, snd res = [uri]) /\
  (fst res = true <-> exists uri, snd res = [uri] /\ connect uri = None).
Proof.
  intros res. subst res. unfold connectToDatabase.
  destruct MONGODB_URI as [u|].
  2:{ cbn [fst snd]. split; [|split].
      - intros uri. split; [discriminate|]. intros (H & _). discriminate.
      - now left.
      - split; [discriminate|]. intros (uri & H & _). discriminate. }
  destruct (String.eqb_spec u "") as [->|Hne]; cbn [negb andb].
  { cbn [fst snd]. split; [|split].
    - intros uri. split; [discriminate|].
      intros ([= <-] & H & _). contradiction.
    - now left.
    - split; [discriminate|]. intros (uri & H & _). discriminate. }
  destruct (includes u "xxxxx") eqn:Hx; cbn [negb].
  { cbn [fst snd]. split; [|split].
    - intros uri. split; [discriminate|].
      intros ([= <-] & _ & H & _). congruence.
    - now left.
    - split; [discriminate|]. intros (uri & H & _). discriminate. }
  destruct (includes u "YOUR_PASSWORD_HERE") eqn:H1; cbn [orb].
  { cbn [fst snd]. split; [|split].
    - intros uri. split; [discriminate|].
      intros ([= <-] & _ & _ & H & _). congruence.
    - now left.
    - split; [discriminate|]. intros (uri & H & _). discriminate. }
  destruct (includes u "<db_password>") eqn:H2; cbn [orb].
  { cbn [fst snd]. split; [|split].
    - intros uri. split; [discriminate|].
      intros ([= <-] & _ & _ & _ & H & _). congruence.
    - now left.
    - split; [discriminate|]. intros (uri & H & _). discriminate. }
  destruct (includes u "your-actual-password") eqn:H3.
  { cbn [fst snd]. split; [|split].
    - intros uri. split; [discriminate|].
      intros ([= <-] & _ & _ & _ & _ & H). congruence.
    - now left.
    - split; [discriminate|]. intros (uri & H & _). discriminate. }
  assert (Hcalls : snd (match connect u with
                        | Some _ => (false, [u])
                        | None => (true, [u])
                        end) = [u]) by now destruct (connect u).
  rewrite Hcalls. split; [|split].
  - intros uri. split.
    + intros [= <-]. repeat split; assumption.
    + intros ([= <-] & _). reflexivity.
  - right. now exists u.
  - destruct (connect u) eqn:Hc; cbn [fst]; split.
    + discriminate.
    + intros (uri & [= <-] & H). congruence.
    + intros _. now exists u.
    + reflexivity.
Qed.

Lemma connectToDatabase_outcomes_witness :
  connectToDatabase
    (Some "mongodb+srv://app:<db_password>@cluster0.mongodb.net/medicover")
    (fun _ => None) = (false, []) /\
  fst (connectToDatabase (Some "mongodb://localhost:27017/medicover")
                         (fun _ => None)) = true.
Proof.
  split; [reflexivity|].
  apply (connectToDatabase_outcomes
           (Some "mongodb://localhost:27017/medicover") (fun _ => None)).
  exists "mongodb://localhost:27017/medicover". split; reflexivity.
Defined.
